(** * vscode-settings: the Property Resolver, the Documentation Catalog
      lookup and the Project Type Analyzer

    The repository holds the source of the extension twice, and the two
    copies differ in the resolver:

    - [src/src/extension.ts], the compiled entry point, which registers
      the five commands of the package manifest and holds the
      [ProjectAnalyzer]; it is embedded in [Module Extension];
    - an older copy with the large documentation table, which registers
      two of the commands and whose resolver strips comments, parses the
      whole document and uses the ["unknown"] sentinel; it is embedded in
      [Module Legacy].

    [getConfigDocumentation] and [isConfigFile] read the same in both and
    are embedded once, in [Module Model].

    The tree views and the handler of cursor movements are embedded in
    [Module Views] for [src/src/extension.ts] and in [Module LegacyViews]
    for the older copy, the command that applies a configuration template
    in [Module Templates].  What they need of the platform ([split],
    [join], [Array.prototype.sort] with a consistent comparator, object
    spread) is written out next to them; [localeCompare], [fs.mkdirSync],
    [fs.readFileSync] and [fs.writeFileSync] are parameters.

    Platform behaviour the code relies on (JavaScript strings, the regular
    expressions that occur in the sources, [path.basename], property
    lookup on a plain object) is written out in [Module JS].  [JSON.parse],
    [JSON.stringify], [path.join], the [RegExp] constructor and the file
    system are parameters of the functions that call them.  Numbers of the
    analyzer are exact rationals; the comparison with the threshold is
    checked against binary64 arithmetic separately. *)

From Stdlib Require Import String Ascii.
From Stdlib Require Import NArith ZArith QArith Bool Lia PeanoNat List.
From Stdlib Require PrimFloat Uint63 DecimalString.
Import ListNotations.
Close Scope Q_scope.

Set Implicit Arguments.

(* ================================================================== *)
(** * JavaScript strings and regular expressions *)
(* ================================================================== *)

Module JS.

(** A JavaScript string is a sequence of UTF-16 code units. *)
Definition char := N.
Definition str := list char.

Definition lit (s : string) : str :=
  map N_of_ascii (list_ascii_of_string s).

Arguments lit s%_string.

Definition dq : char := 34%N.        (* the double quote *)
Definition colon : char := 58%N.
Definition comma : char := 44%N.
Definition slash : char := 47%N.
Definition star : char := 42%N.
Definition dot : char := 46%N.

Definition quoted (s : str) : str := dq :: s ++ [dq].

Fixpoint str_eqb (a b : str) : bool :=
  match a, b with
  | [], [] => true
  | x :: a', y :: b' => N.eqb x y && str_eqb a' b'
  | _, _ => false
  end.

(** [a || b] on strings: the empty string is falsy. *)
Definition or_else (a b : str) : str :=
  match a with [] => b | _ => a end.

(** ** Character classes *)

(** ECMAScript LineTerminator: LF, CR, LS, PS. *)
Definition is_line_terminator (c : char) : bool :=
  (N.eqb c 10 || N.eqb c 13 || N.eqb c 8232 || N.eqb c 8233)%N.

(** ECMAScript WhiteSpace + LineTerminator: what [\s] matches and what
    [String.prototype.trim] removes. *)
Definition is_space (c : char) : bool :=
  (N.eqb c 9 || N.eqb c 10 || N.eqb c 11 || N.eqb c 12 || N.eqb c 13
   || N.eqb c 32 || N.eqb c 160 || N.eqb c 5760
   || (N.leb 8192 c && N.leb c 8202)
   || N.eqb c 8232 || N.eqb c 8233 || N.eqb c 8239 || N.eqb c 8287
   || N.eqb c 12288 || N.eqb c 65279)%N.

Inductive cclass : Type :=
| CChar (c : char)       (* a literal character *)
| CNotChar (c : char)    (* [^c] *)
| CDot                   (* .   : anything but a line terminator *)
| CSpace                 (* \s *)
| CAny.                  (* [\s\S] *)

Definition cc_test (cc : cclass) (x : char) : bool :=
  match cc with
  | CChar c => N.eqb x c
  | CNotChar c => negb (N.eqb x c)
  | CDot => negb (is_line_terminator x)
  | CSpace => is_space x
  | CAny => true
  end.

(** ** Regular expressions (the constructs the sources use) *)

Inductive regex : Type :=
| Empty
| Atom (cc : cclass)
| Rep (greedy : bool) (min : nat) (cc : cclass)  (* cc*, cc+, cc*?, cc+? *)
| Seq (r1 r2 : regex)
| Alt (r1 r2 : regex)
| Group (n : nat) (r : regex)                    (* capturing group n *)
| Eol (multiline : bool).                        (* $ *)

Definition captures := list (nat * str).

Fixpoint group (n : nat) (caps : captures) : str :=
  match caps with
  | [] => []
  | (m, s) :: rest => if Nat.eqb n m then s else group n rest
  end.

Definition at_eol (multiline : bool) (s : str) : bool :=
  match s with
  | [] => true
  | c :: _ => multiline && is_line_terminator c
  end.

Definition consumed (s rest : str) : str :=
  firstn (length s - length rest) s.

(** Backtracking matcher in continuation-passing style: alternatives and
    repetition counts are tried in the order the ECMAScript semantics
    prescribes, the first success wins. *)
Section Matcher.
Variable A : Type.

Fixpoint rep_greedy (cc : cclass) (min : nat) (s : str)
         (k : str -> option A) : option A :=
  let stop := match min with O => k s | S _ => None end in
  match s with
  | x :: s' =>
      if cc_test cc x then
        match rep_greedy cc (pred min) s' k with
        | Some r => Some r
        | None => stop
        end
      else stop
  | [] => stop
  end.

Fixpoint rep_lazy (cc : cclass) (min : nat) (s : str)
         (k : str -> option A) : option A :=
  let more :=
    match s with
    | x :: s' => if cc_test cc x then rep_lazy cc (pred min) s' k else None
    | [] => None
    end in
  match min with
  | O => match k s with Some r => Some r | None => more end
  | S _ => more
  end.

Fixpoint rmatch (r : regex) (s : str) (caps : captures)
         (k : str -> captures -> option A) : option A :=
  match r with
  | Empty => k s caps
  | Atom cc =>
      match s with
      | x :: s' => if cc_test cc x then k s' caps else None
      | [] => None
      end
  | Rep true min cc => rep_greedy cc min s (fun s' => k s' caps)
  | Rep false min cc => rep_lazy cc min s (fun s' => k s' caps)
  | Seq r1 r2 => rmatch r1 s caps (fun s' caps' => rmatch r2 s' caps' k)
  | Alt r1 r2 =>
      match rmatch r1 s caps k with
      | Some x => Some x
      | None => rmatch r2 s caps k
      end
  | Group n r1 =>
      rmatch r1 s caps (fun s' caps' => k s' ((n, consumed s s') :: caps'))
  | Eol m => if at_eol m s then k s caps else None
  end.
End Matcher.

(** A match anchored at the head of [s]: the unconsumed rest and the
    captures. *)
Definition match_here (r : regex) (s : str) : option (str * captures) :=
  rmatch r s [] (fun s' caps => Some (s', caps)).

Record MatchResult : Type := mkMatch {
  before : str;        (* input left of the match *)
  matched : str;       (* m[0] *)
  after : str;         (* input right of the match *)
  groups : captures }.

(** [RegExp.prototype.exec] without the [g] flag: the leftmost start
    position at which the pattern matches. *)
Fixpoint exec_from (r : regex) (pre : str) (s : str) : option MatchResult :=
  match match_here r s with
  | Some (rest, caps) => Some (mkMatch (rev pre) (consumed s rest) rest caps)
  | None =>
      match s with
      | [] => None
      | c :: s' => exec_from r (c :: pre) s'
      end
  end.

Definition exec (r : regex) (s : str) : option MatchResult := exec_from r [] s.

(** [regex.test(s)] *)
Definition test (r : regex) (s : str) : bool :=
  match exec r s with Some _ => true | None => false end.

(** [s.replace(regex, repl)] without the [g] flag. *)
Definition replace_regex (r : regex) (repl : str) (s : str) : str :=
  match exec r s with
  | Some m => before m ++ repl ++ after m
  | None => s
  end.

(** [s.replace(regex, repl)] with the [g] flag: every match, left to
    right; after an empty match the scan moves on by one character.
    [fuel] bounds the number of scan steps by the length of the input. *)
Fixpoint replace_all_fuel (fuel : nat) (r : regex) (repl : str) (s : str) : str :=
  match fuel with
  | O => s
  | S fuel' =>
      match match_here r s with
      | Some (rest, _) =>
          match consumed s rest, s with
          | [], c :: s' => repl ++ c :: replace_all_fuel fuel' r repl s'
          | [], [] => repl
          | _ :: _, _ => repl ++ replace_all_fuel fuel' r repl rest
          end
      | None =>
          match s with
          | [] => []
          | c :: s' => c :: replace_all_fuel fuel' r repl s'
          end
      end
  end.

Definition replace_all (r : regex) (repl : str) (s : str) : str :=
  replace_all_fuel (S (length s)) r repl s.

(** ** String methods *)

Fixpoint starts_with (p s : str) : bool :=
  match p, s with
  | [], _ => true
  | x :: p', y :: s' => N.eqb x y && starts_with p' s'
  | _ :: _, [] => false
  end.

(** [s.includes(p)] *)
Fixpoint includes (p s : str) : bool :=
  starts_with p s ||
  match s with
  | [] => false
  | _ :: s' => includes p s'
  end.

(** [s.endsWith(p)] *)
Definition ends_with (p s : str) : bool :=
  starts_with (rev p) (rev s).

(** [s.slice(0, -1)] *)
Definition slice_0_m1 (s : str) : str := removelast s.

(** [s.replace(p, repl)] with a string pattern: the first occurrence only. *)
Fixpoint replace_first (p repl s : str) : str :=
  if starts_with p s then repl ++ skipn (length p) s
  else match s with
       | [] => []
       | c :: s' => c :: replace_first p repl s'
       end.

Fixpoint trim_start (s : str) : str :=
  match s with
  | c :: s' => if is_space c then trim_start s' else s
  | [] => []
  end.

(** [s.trim()] *)
Definition trim (s : str) : str := rev (trim_start (rev (trim_start s))).

(** [array.includes(x)] on an array of strings. *)
Definition array_includes (x : str) (l : list str) : bool :=
  existsb (str_eqb x) l.

(** POSIX [path.basename(p)]: trailing separators are dropped, then the
    part after the last separator is returned. *)
Fixpoint drop_trailing_slashes_rev (r : str) : str :=
  match r with
  | c :: r' => if N.eqb c slash then drop_trailing_slashes_rev r' else r
  | [] => []
  end.

Fixpoint take_until_slash (r : str) : str :=
  match r with
  | c :: r' => if N.eqb c slash then [] else c :: take_until_slash r'
  | [] => []
  end.

Definition basename (p : str) : str :=
  rev (take_until_slash (drop_trailing_slashes_rev (rev p))).

(** The names a plain object literal inherits from [Object.prototype];
    every one of them is bound to a function or an object, hence truthy. *)
Definition Object_prototype_names : list str :=
  [lit "constructor"; lit "__defineGetter__"; lit "__defineSetter__";
   lit "hasOwnProperty"; lit "__lookupGetter__"; lit "__lookupSetter__";
   lit "isPrototypeOf"; lit "propertyIsEnumerable"; lit "toString";
   lit "valueOf"; lit "__proto__"; lit "toLocaleString"].

End JS.

(* ================================================================== *)
(** * Parsed JSON documents *)
(* ================================================================== *)

Module Json.
Import JS.

(** What [JSON.parse] returns.  [JObj props] lists the own properties of
    the object in the order of [Object.keys]. *)
#[local] Unset Elimination Schemes.
Inductive json : Type :=
| JNull
| JBool (b : bool)
| JNum (x : PrimFloat.float)
| JStr (s : str)
| JArr (items : list json)
| JObj (props : list (str * json)).
#[local] Set Elimination Schemes.

(** ToBoolean *)
Definition truthy (j : json) : bool :=
  match j with
  | JNull => false
  | JBool b => b
  | JNum x => PrimFloat.eqb x x && negb (PrimFloat.eqb x PrimFloat.zero)
  | JStr s => match s with [] => false | _ => true end
  | JArr _ | JObj _ => true
  end.

Fixpoint lookup (A : Type) (k : str) (props : list (str * A)) : option A :=
  match props with
  | [] => None
  | (k', v) :: rest => if str_eqb k k' then Some v else lookup k rest
  end.

(** The canonical decimal spelling of an array index. *)
Definition decimal (n : nat) : str :=
  lit (DecimalString.NilEmpty.string_of_uint (Nat.to_uint n)).

Definition number_of_nat (n : nat) : PrimFloat.float :=
  PrimFloat.of_uint63 (Uint63.of_Z (Z.of_nat n)).

(** Own enumerable properties, in [Object.keys] order. *)
Definition enumerable (j : json) : list (str * json) :=
  match j with
  | JObj props => props
  | JArr items => combine (map decimal (seq 0 (length items))) items
  | JStr s => combine (map decimal (seq 0 (length s))) (map (fun c => JStr [c]) s)
  | _ => []
  end.

(** Own properties: arrays and strings also own [length]. *)
Definition own_properties (j : json) : list (str * json) :=
  match j with
  | JArr items => enumerable j ++ [(lit "length", JNum (number_of_nat (length items)))]
  | JStr s => enumerable j ++ [(lit "length", JNum (number_of_nat (length s)))]
  | _ => enumerable j
  end.

(** [j[k]] for an own property [k]. *)
Definition get (j : json) (k : str) : option json := lookup k (own_properties j).

(** [j.hasOwnProperty(k)].  [None] is the [TypeError] raised when the
    receiver is [null], or when the parsed object has an own property named
    [hasOwnProperty] (parsed data is never callable). *)
Definition hasOwnProperty (j : json) (k : str) : option bool :=
  match j with
  | JNull => None
  | _ =>
      match get j (lit "hasOwnProperty") with
      | Some _ => None
      | None => Some (match get j k with Some _ => true | None => false end)
      end
  end.

(** [typeof j === 'object'] *)
Definition typeof_object (j : json) : bool :=
  match j with JNull | JArr _ | JObj _ => true | _ => false end.

(** [Object.keys(j)] *)
Definition keys (j : json) : list str := map fst (enumerable j).

End Json.

(* ================================================================== *)
(** * Data shared by both variants of the extension *)
(* ================================================================== *)

Module Model.
Import JS.

(** The result of [getPropertyAtPosition]: [{ key, value }]. *)
Record Property : Type := mkProperty { key : str; value : str }.

(** An entry of [configDocs]. *)
Record DocEntry : Type := mkDoc {
  description : str;
  type : str;
  default : option str;
  enum : option (list str);
  enumDescriptions : option (list (str * str)) }.

(** What [(configDocs as any)[key] || {...}] evaluates to: an entry, or a
    member that the object literal inherits from [Object.prototype]. *)
Inductive DocResult : Type :=
| Doc (e : DocEntry)
| Inherited (name : str).

(** [interface ProjectType]. *)
Record ProjectType : Type := mkProjectType {
  name : str;
  detected : bool;
  files : list str;
  patterns : list str;
  confidence : Q }.

(** [vscode.TextDocument]: the text, and its lines split at CRLF, LF or
    CR. *)
Fixpoint split_lines (cur : str) (s : str) : list str :=
  match s with
  | [] => [rev cur]
  | c :: s' =>
      if N.eqb c 10 then rev cur :: split_lines [] s'
      else if N.eqb c 13 then
        match s' with
        | c2 :: s'' =>
            if N.eqb c2 10 then rev cur :: split_lines [] s''
            else rev cur :: split_lines [] s'
        | [] => rev cur :: split_lines [] s'
        end
      else split_lines (c :: cur) s'
  end.

(** [document.lineAt(line).text]; [None] when the call throws (no such
    line). *)
Definition lineAt (document : str) (line : nat) : option str :=
  nth_error (split_lines [] document) line.

(** [/\x22([^\x22]+)\x22\s*:\s*(.+?)(?:,\s*$|$)/], writing [\x22] for the
    double quote. *)
Definition keyValuePattern : regex :=
  Seq (Atom (CChar dq))
 (Seq (Group 1 (Rep true 1 (CNotChar dq)))
 (Seq (Atom (CChar dq))
 (Seq (Rep true 0 CSpace)
 (Seq (Atom (CChar colon))
 (Seq (Rep true 0 CSpace)
 (Seq (Group 2 (Rep false 1 CDot))
      (Alt (Seq (Atom (CChar comma)) (Seq (Rep true 0 CSpace) (Eol false)))
           (Eol false)))))))).

(** [/\x22([^\x22]+)\x22/] *)
Definition keyOnlyPattern : regex :=
  Seq (Atom (CChar dq))
 (Seq (Group 1 (Rep true 1 (CNotChar dq)))
      (Atom (CChar dq))).

(** ** Functions that read the same in both variants

    [getConfigDocumentation] and [isConfigFile] are character for
    character the same in [src/src/extension.ts] (lines 303-317) and in the
    older variant (lines 1500-1506 and 1586-1591). *)

Section Catalog.
(** The own properties of the [configDocs] object literal. *)
Variable configDocs : list (str * DocEntry).

Definition sentinel : DocEntry :=
  mkDoc (lit "No documentation available for this configuration.")
        (lit "unknown") None None None.

(** [return (configDocs as any)[key] || { description: ..., type: 'unknown' }]:
    the bracket lookup finds an own property first, then what the object
    inherits; only a missing (falsy) result yields the sentinel. *)
Definition getConfigDocumentation (key : str) : DocResult :=
  match Json.lookup key configDocs with
  | Some e => Doc e
  | None =>
      if array_includes key Object_prototype_names then Inherited key
      else Doc sentinel
  end.
End Catalog.

Definition configFileNames : list str :=
  [lit "settings.json"; lit "launch.json"; lit "extensions.json"].

(** [isConfigFile(filePath)] *)
Definition isConfigFile (filePath : str) : bool :=
  let fileName := basename filePath in
  let isInVscodeDir := includes (lit ".vscode") filePath in
  isInVscodeDir && array_includes fileName configFileNames.

End Model.

(* ================================================================== *)
(** * The older variant of the extension (resolver with enrichment) *)
(* ================================================================== *)

Module Legacy.
Import JS Json Model.

(** [/\/\/.*$/gm] *)
Definition lineComment : regex :=
  Seq (Atom (CChar slash)) (Seq (Atom (CChar slash))
      (Seq (Rep true 0 CDot) (Eol true))).

(** [/\/\*[\s\S]*?\*\//g] *)
Definition blockComment : regex :=
  Seq (Atom (CChar slash)) (Seq (Atom (CChar star))
      (Seq (Rep false 0 CAny)
      (Seq (Atom (CChar star)) (Atom (CChar slash))))).

(** [/,$/] *)
Definition trailingComma : regex := Seq (Atom (CChar comma)) (Eol false).

Definition stripComments (text : str) : str :=
  replace_all blockComment [] (replace_all lineComment [] text).

(** The line-local step: [keyFromLine] and [valueFromLine] ([None] is
    [null]). *)
Definition fromLine (currentLineText : str) : option str * option str :=
  match exec keyValuePattern currentLineText with
  | Some kvMatch =>
      (Some (group 1 (groups kvMatch)),
       Some (replace_regex trailingComma [] (trim (group 2 (groups kvMatch)))))
  | None =>
      match exec keyOnlyPattern currentLineText with
      | Some keyMatch => (Some (group 1 (groups keyMatch)), Some (lit "unknown"))
      | None => (None, None)
      end
  end.

(** Truthiness of a string-or-null. *)
Definition truthy_str (s : option str) : bool :=
  match s with Some (_ :: _) => true | _ => false end.

(** [valueFromLine || 'unknown'] *)
Definition value_or_unknown (valueFromLine : option str) : str :=
  match valueFromLine with
  | Some v => or_else v (lit "unknown")
  | None => lit "unknown"
  end.

Section Resolver.
Variable JSON_parse : str -> option json.   (* [None]: SyntaxError *)
Variable JSON_stringify : json -> str.

(** [typeof value === 'string' ? `"${value}"` : JSON.stringify(value)] *)
Definition valueStr (v : json) : str :=
  match v with
  | JStr s => quoted s
  | _ => JSON_stringify v
  end.

(** [for (const config of array) { if (config && typeof config === 'object'
    && config.hasOwnProperty(key)) return ... }].  The outer [option] is
    [None] when a call throws; the inner one is [None] when the loop ends
    without returning. *)
Fixpoint scanElements (key : str) (items : list json)
  : option (option Property) :=
  match items with
  | [] => Some None
  | config :: rest =>
      if truthy config && typeof_object config then
        match hasOwnProperty config key with
        | None => None
        | Some true =>
            match get config key with
            | Some v => Some (Some (mkProperty key (valueStr v)))
            | None => None
            end
        | Some false => scanElements key rest
        end
      else scanElements key rest
  end.

(** [if (jsonObject.NAME && Array.isArray(jsonObject.NAME)) { for ... }]:
    only an object has a member of that name, and only an array passes. *)
Definition scanCollection (jsonObject : json) (name key : str)
  : option (option Property) :=
  match (match jsonObject with JObj props => lookup name props | _ => None end) with
  | Some (JArr items) => scanElements key items
  | _ => Some None
  end.

(** The body of [if (jsonObject && keyFromLine) { ... }]: the top-level
    property, then the [configurations] array, then the [tasks] array,
    then the value read from the line.  [None] when a call throws. *)
Definition structuralEnrichment (jsonObject : json) (keyFromLine : str)
           (valueFromLine : option str) : option Property :=
  match hasOwnProperty jsonObject keyFromLine with
  | None => None
  | Some true =>
      match get jsonObject keyFromLine with
      | Some v => Some (mkProperty keyFromLine (valueStr v))
      | None => None
      end
  | Some false =>
      match scanCollection jsonObject (lit "configurations") keyFromLine with
      | None => None
      | Some (Some p) => Some p
      | Some None =>
          match scanCollection jsonObject (lit "tasks") keyFromLine with
          | None => None
          | Some (Some p) => Some p
          | Some None =>
              Some (mkProperty keyFromLine (value_or_unknown valueFromLine))
          end
      end
  end.

(** The fallback on the first key of the parsed document. *)
Definition firstProperty (jsonObject : json) : option Property :=
  match keys jsonObject with
  | firstKey :: _ =>
      if truthy_str (Some firstKey) then
        match get jsonObject firstKey with
        | Some v => Some (mkProperty firstKey (valueStr v))
        | None => None
        end
      else None
  | [] => None
  end.

(** [getPropertyAtPosition(document, position)]; the statements are in
    the order of the source, [None] is [null] (also returned by the outer
    [catch]). *)
Definition getPropertyAtPosition (document : str) (line : nat)
  : option Property :=
  let text := document in
  let cleanText := stripComments text in
  match lineAt document line with
  | None => None
  | Some currentLineText =>
      let '(keyFromLine, valueFromLine) := fromLine currentLineText in
      if truthy_str keyFromLine then
        (* "If we found a key from the line, return it" *)
        match keyFromLine with
        | Some k => Some (mkProperty k (value_or_unknown valueFromLine))
        | None => None
        end
      else
        match JSON_parse cleanText with
        | None => None
        | Some jsonObject =>
            if truthy jsonObject && truthy_str keyFromLine then
              match keyFromLine with
              | Some k => structuralEnrichment jsonObject k valueFromLine
              | None => None
              end
            else if truthy jsonObject then firstProperty jsonObject
            else None
        end
  end.
End Resolver.

End Legacy.

(* ================================================================== *)
(** * [src/src/extension.ts] *)
(* ================================================================== *)

Module Extension.
Import JS Model.

(** [getPropertyAtPosition(document, position)] (lines 320-344): the
    line-local patterns only. *)
Definition getPropertyAtPosition (document : str) (line : nat)
  : option Property :=
  match lineAt document line with
  | None => None
  | Some currentLineText =>
      match exec keyValuePattern currentLineText with
      | Some kvMatch =>
          Some (mkProperty (group 1 (groups kvMatch))
                           (trim (group 2 (groups kvMatch))))
      | None =>
          match exec keyOnlyPattern currentLineText with
          | Some keyMatch =>
              Some (mkProperty (group 1 (groups keyMatch)) (lit "undefined"))
          | None => None
          end
      end
  end.

(** Three entries of [configDocs] (lines 35-39, 280-289); the table has
    some two hundred, all of this form. *)
Definition configDocs_excerpt : list (str * DocEntry) :=
  [ (lit "editor.tabSize",
     mkDoc (lit "The number of spaces a tab is equal to. This setting is overridden based on the file contents when editor.detectIndentation is true.")
           (lit "number") (Some (lit "4")) None None);
    (lit "version",
     mkDoc (lit "Version of the debug configuration format.")
           (lit "string") (Some (lit "0.2.0")) None None);
    (lit "configurations",
     mkDoc (lit "List of configurations. Each configuration is a separate debug session.")
           (lit "array") (Some (lit "[]")) None None) ].

(** ** [class ProjectAnalyzer] *)

(** The two [fs] calls of the analyzer.  [readdirSync] is [None] when it
    throws (no such directory, not a directory, permission denied). *)
Record FileSystem : Type := mkFS {
  existsSync : str -> bool;
  readdirSync : str -> option (list str) }.

(** [a > b] on numbers.  Confidences are kept as exact rationals. *)
Definition Qgt_bool (a b : Q) : bool := negb (Qle_bool a b).

Section Analyzer.
Variable fs : FileSystem.
Variable path_join : str -> str -> str.      (* [path.join] *)
Variable RegExp : str -> option regex.       (* [None]: SyntaxError *)

(** The loop over [type.files]. *)
Definition checkFiles (workspacePath : str) (fl : list str) : nat :=
  length (filter (fun file => existsSync fs (path_join workspacePath file)) fl).

(** The loop over [type.patterns] inside the [try]: a [SyntaxError] of
    the constructor leaves the loop with the count reached so far. *)
Fixpoint checkPatterns (files : list str) (pats : list str)
         (detectedPatterns : nat) : nat :=
  match pats with
  | [] => detectedPatterns
  | pattern :: rest =>
      if ends_with (lit "/") pattern then
        checkPatterns files rest
          (if existsb (fun f => str_eqb f (slice_0_m1 pattern)) files
           then S detectedPatterns else detectedPatterns)
      else if includes (lit "*") pattern then
        match RegExp (replace_first (lit "*") (lit ".*") pattern) with
        | None => detectedPatterns
        | Some regex =>
            checkPatterns files rest
              (if existsb (fun f => test regex f) files
               then S detectedPatterns else detectedPatterns)
        end
      else checkPatterns files rest detectedPatterns
  end.

Definition detectedPatterns (workspacePath : str) (pats : list str) : nat :=
  match readdirSync fs workspacePath with
  | Some files => checkPatterns files pats 0
  | None => 0
  end.

Definition number (n : nat) : Q := inject_Z (Z.of_nat n).

(** The body of [for (const type of projectTypes)]. *)
Definition analyzeType (workspacePath : str) (type : ProjectType)
  : ProjectType :=
  let detectedFiles := checkFiles workspacePath (files type) in
  let detectedPatterns := detectedPatterns workspacePath (patterns type) in
  let totalChecks := length (files type) + length (patterns type) in
  let totalDetected := detectedFiles + detectedPatterns in
  let confidence :=
    if Nat.ltb 0 totalChecks
    then (number totalDetected / number totalChecks * 100)%Q
    else 0%Q in
  mkProjectType (name type) (Qgt_bool confidence 30) (files type)
                (patterns type) confidence.

Definition projectTypes : list ProjectType :=
  [ mkProjectType (lit "Node.js") false
      [lit "package.json"]
      [lit "node_modules/"; lit "*.js"; lit "*.ts"] 0;
    mkProjectType (lit "React") false
      [lit "package.json"]
      [lit "src/"; lit "public/"; lit "*.jsx"; lit "*.tsx"] 0;
    mkProjectType (lit "Python") false
      [lit "requirements.txt"; lit "setup.py"; lit "pyproject.toml"]
      [lit "*.py"; lit "__pycache__/"] 0 ].

(** [analyzeProject(workspacePath)] *)
Definition analyzeProject (workspacePath : str) : list ProjectType :=
  map (analyzeType workspacePath) projectTypes.
End Analyzer.

(** The same arithmetic on IEEE 754 binary64 numbers, as the engine
    carries it out: [(totalDetected / totalChecks) * 100 > 30]. *)
Definition binary64 (n : nat) : PrimFloat.float :=
  PrimFloat.of_uint63 (Uint63.of_Z (Z.of_nat n)).

Definition confidence_binary64 (totalDetected totalChecks : nat)
  : PrimFloat.float :=
  PrimFloat.mul (PrimFloat.div (binary64 totalDetected) (binary64 totalChecks))
                (binary64 100).

Definition detected_binary64 (totalDetected totalChecks : nat) : bool :=
  PrimFloat.ltb (binary64 30) (confidence_binary64 totalDetected totalChecks).

(** ** The selection in [createRecommendedSettings] (lines 705-713) *)

(** [(prev, current) => (prev.confidence > current.confidence) ? prev : current] *)
Definition moreConfident (prev current : ProjectType) : ProjectType :=
  if Qgt_bool (confidence prev) (confidence current) then prev else current.

(** [array.reduce(f)] without an initial value; [None] on the empty
    array, where the call throws. *)
Definition reduce (A : Type) (f : A -> A -> A) (l : list A) : option A :=
  match l with
  | [] => None
  | x :: xs => Some (fold_left f xs x)
  end.

(** [primaryType]; [None] when the command returns early because nothing
    was detected. *)
Definition primaryType (analysis : list ProjectType) : option ProjectType :=
  let detectedTypes := filter detected analysis in
  if Nat.eqb (length detectedTypes) 0 then None
  else reduce moreConfident detectedTypes.

(** ** The [RegExp] constructor on the patterns the analyzer builds

    Patterns made of literal characters, [.] and [*] after a character
    or a dot; every pattern of [projectTypes] is of this kind.  [None]
    is the [SyntaxError] of a [*] with nothing to repeat; a pattern that
    uses any other operator is outside this fragment and is mapped to
    [None] as well. *)
Definition is_operator (c : char) : bool :=
  existsb (N.eqb c) (lit "\^$+?()[]{}|").

Fixpoint RegExp_fragment (source : str) : option regex :=
  match source with
  | [] => Some Empty
  | c :: rest =>
      if N.eqb c star || is_operator c then None
      else
        let cc := if N.eqb c dot then CDot else CChar c in
        match rest with
        | c2 :: rest' =>
            if N.eqb c2 star then
              match RegExp_fragment rest' with
              | Some r => Some (Seq (Rep true 0 cc) r)
              | None => None
              end
            else
              match RegExp_fragment rest with
              | Some r => Some (Seq (Atom cc) r)
              | None => None
              end
        | [] => Some (Seq (Atom cc) Empty)
        end
  end.

End Extension.

(* ================================================================== *)
(** * The specification's own notions, for comparison *)
(* ================================================================== *)

Module Spec.
Import JS.



(** A pattern counts as matched when it is a directory marker and some
    entry equals it without the separator, or it holds a wildcard and some
    entry satisfies the rule built from it. *)
Definition pattern_matched (RegExp : str -> option regex) (entries : list str)
           (pattern : str) : bool :=
  if ends_with (lit "/") pattern then
    existsb (fun f => str_eqb f (slice_0_m1 pattern)) entries
  else if includes (lit "*") pattern then
    match RegExp (replace_first (lit "*") (lit ".*") pattern) with
    | Some regex => existsb (fun f => test regex f) entries
    | None => false
    end
  else false.

(** The rule can be built for every wildcard pattern of the list. *)
Definition patterns_compile (RegExp : str -> option regex) (pats : list str)
  : Prop :=
  Forall (fun pattern =>
            ends_with (lit "/") pattern = false ->
            includes (lit "*") pattern = true ->
            RegExp (replace_first (lit "*") (lit ".*") pattern) <> None) pats.

(** The directories a path goes through: its components but the last. *)
Fixpoint components (cur : str) (path : str) : list str :=
  match path with
  | [] => [rev cur]
  | c :: path' =>
      if N.eqb c slash then rev cur :: components [] path'
      else components (c :: cur) path'
  end.

(** The file resides inside a directory named [.vscode]. *)
Definition residesInVscodeDir (filePath : str) : bool :=
  existsb (str_eqb (lit ".vscode")) (removelast (components [] filePath)).

(** ** Shapes of lines *)

(** Every character of [x] is in the class. *)
Definition passes (cc : cclass) (x : str) : Prop :=
  Forall (fun c => cc_test cc c = true) x.

(** The next character, if any, is not in the class. *)
Definition blocked (cc : cclass) (s : str) : Prop :=
  match s with
  | [] => True
  | c :: _ => cc_test cc c = false
  end.

(** A closing part of a key-value line: nothing, or a comma and blanks. *)
Definition closing (tl : str) : Prop :=
  tl = [] \/ exists ws, tl = comma :: ws /\ passes CSpace ws.

(** A text that reads: quoted key [k], blanks, colon, blanks, a
    non-empty fragment [v] without line terminators, closing part. *)
Definition kv_shape (s k v : str) : Prop :=
  exists sp1 sp2 tl,
    s = dq :: k ++ dq :: sp1 ++ colon :: sp2 ++ v ++ tl
    /\ k <> [] /\ ~ In dq k
    /\ passes CSpace sp1 /\ passes CSpace sp2
    /\ v <> [] /\ passes CDot v
    /\ closing tl.

(** A line that holds a quoted token: a quote, a non-empty run without
    quotes, a quote. *)
Definition contains_quoted_token (line : str) : Prop :=
  exists pre k post,
    line = pre ++ quoted k ++ post /\ k <> [] /\ ~ In dq k.

(** A line whose first quoted token is [k]: before it there are only
    characters other than the quote, then quotes that open nothing. *)
Definition first_quoted_token (line k : str) : Prop :=
  exists u n post,
    line = u ++ repeat dq n ++ quoted k ++ post
    /\ ~ In dq u /\ k <> [] /\ ~ In dq k.

(** A well-formed key-value line: indentation without quotes, the quoted
    key [k], a colon, the value [v] (which neither starts nor ends with a
    blank and does not end with a comma), blanks, and the closing part. *)
Definition key_value_line (line k v : str) : Prop :=
  exists pre sp1 sp2 sp3 tl v0 c,
    line = pre ++ quoted k ++ sp1 ++ colon :: sp2 ++ (v ++ sp3) ++ tl
    /\ ~ In dq pre /\ k <> [] /\ ~ In dq k
    /\ passes CSpace sp1 /\ passes CSpace sp2 /\ passes CSpace sp3
    /\ passes CDot (v ++ sp3)
    /\ blocked CSpace v
    /\ v = v0 ++ [c] /\ is_space c = false /\ c <> comma
    /\ closing tl.

(** A value with one trailing comma removed. *)
Definition stripTrailingComma (v : str) : str :=
  match rev v with
  | c :: r => if N.eqb c comma then rev r else v
  | [] => v
  end.

(** Orderings of signatures by confidence. *)
Definition at_most (p q : Model.ProjectType) : Prop :=
  (Model.confidence q <= Model.confidence p)%Q.

Definition below (p q : Model.ProjectType) : Prop :=
  (Model.confidence q < Model.confidence p)%Q.

End Spec.

(* ================================================================== *)
(** * Documents, directories and signatures used as examples *)
(* ================================================================== *)

Module Inputs.
Import JS Json Model Extension.

(** The line [  "editor.tabSize": 4,] *)
Definition tabSize_line : str :=
  lit "  " ++ quoted (lit "editor.tabSize") ++ lit ": 4,".

(** The line ["a": ,] (a value deleted in mid-edit) *)
Definition emptied_line : str := quoted (lit "a") ++ lit ": ,".

(** The line ["program"] *)
Definition program_line : str := quoted (lit "program").

Definition newline : str := [10%N].

(** [indent "key": value] *)
Definition member (indent : string) (k : string) (v : str) : str :=
  lit indent ++ quoted (lit k) ++ lit ": " ++ v.

(** A [launch.json] with two configurations:
<<
{
    "version": "0.2.0",
    "configurations": [
        {
            "type": "python",
            "name": "A"
        },
        {
            "type": "node",
            "name": "B"
        }
    ]
}
>> *)
Definition launch_text : str :=
  concat (map (fun l => l ++ newline)
    [ lit "{";
      member "    " "version" (quoted (lit "0.2.0") ++ lit ",");
      member "    " "configurations" (lit "[");
      lit "        {";
      member "            " "type" (quoted (lit "python") ++ lit ",");
      member "            " "name" (quoted (lit "A"));
      lit "        },";
      lit "        {";
      member "            " "type" (quoted (lit "node") ++ lit ",");
      member "            " "name" (quoted (lit "B"));
      lit "        }";
      lit "    ]" ]) ++ lit "}".

Definition launch_configurations : json :=
  JArr [ JObj [(lit "type", JStr (lit "python")); (lit "name", JStr (lit "A"))];
         JObj [(lit "type", JStr (lit "node")); (lit "name", JStr (lit "B"))] ].

(** What [JSON.parse] returns on [launch_text]. *)
Definition launch_json : json :=
  JObj [ (lit "version", JStr (lit "0.2.0"));
         (lit "configurations", launch_configurations) ].

(** [path.join(dir, file)] on a directory path without a trailing
    separator and a plain file name. *)
Definition posix_join (dir file : str) : str := dir ++ slash :: file.

Definition file_system (existing : list str) (listing : str -> option (list str))
  : FileSystem :=
  mkFS (fun p => array_includes p existing) listing.

(** No such directory: nothing exists, the listing throws. *)
Definition nothing_there : FileSystem := file_system [] (fun _ => None).

(** A directory that can be searched but not read (mode [--x]): its
    listing throws, the files in it can still be probed. *)
Definition search_only : FileSystem :=
  file_system [lit "/w/requirements.txt"; lit "/w/setup.py"; lit "/w/pyproject.toml"]
              (fun _ => None).

(** A signature with ten marker files. *)
Definition ten_markers : ProjectType :=
  mkProjectType (lit "Ten") false
    (map (fun d => lit "m" ++ Json.decimal d) (seq 0 10)) [] 0.

Definition markers_present (n : nat) : FileSystem :=
  file_system (map (fun d => lit "/w/m" ++ Json.decimal d) (seq 0 n))
              (fun _ => Some []).

(** A workspace with [package.json], [setup.py], the directories [src],
    [public] and [__pycache__]. *)
Definition tied_workspace : FileSystem :=
  file_system [lit "/w/package.json"; lit "/w/setup.py"]
    (fun p => if str_eqb p (lit "/w")
              then Some [lit "src"; lit "public"; lit "setup.py";
                         lit "__pycache__"; lit "package.json"]
              else None).

End Inputs.

(* ================================================================== *)
(** * Further notions used in statements *)
(* ================================================================== *)

Module Notions.
Import JS Spec.

(** A text that neither begins nor ends with a blank. *)
Definition trimmed (s : str) : Prop :=
  blocked CSpace s /\ blocked CSpace (rev s).

End Notions.

(* ================================================================== *)
(** * Further example inputs *)
(* ================================================================== *)

Module MoreInputs.
Import JS Json Model Extension Inputs.

(** A signature with a marker file and a pattern that is neither a
    directory marker nor a wildcard. *)
Definition make_signature : ProjectType :=
  mkProjectType (lit "Make") false [lit "configure"] [lit "Makefile"] 0.

Definition make_workspace : FileSystem :=
  file_system [lit "/w/configure"; lit "/w/Makefile"]
              (fun _ => Some [lit "configure"; lit "Makefile"]).

End MoreInputs.

(* ================================================================== *)
(** * The views of [src/src/extension.ts] *)
(* ================================================================== *)

Module Views.
Import JS Json Model Extension.

(** [vscode.TreeItemCollapsibleState] *)
Inductive CollapsibleState : Type := StateNone | Collapsed | Expanded.

(** [new vscode.ThemeIcon(id, color?)] *)
Record ThemeIcon : Type := mkIcon { icon_id : str; icon_color : option str }.

(** The [command] of a tree item. *)
Record Command : Type := mkCommand {
  command : str; title : str; arguments : list str }.

(** [interface ConfigFileItem] *)
Record ConfigFileItem : Type := mkItem {
  label : str; item_description : str; fileName : str; exists_ : bool }.

(** [class ConfigFile extends vscode.TreeItem] (lines 346-374): the fields
    the constructor sets. *)
Record ConfigFile : Type := mkConfigFile {
  config : ConfigFileItem;
  collapsibleState : CollapsibleState;
  tree_label : str;
  tooltip : str;
  contextValue : str;
  iconPath : ThemeIcon;
  description_shown : str;
  item_command : Command }.

Definition new_ConfigFile (config : ConfigFileItem)
           (collapsibleState : CollapsibleState) : ConfigFile :=
  if exists_ config then
    mkConfigFile config collapsibleState (label config)
      (item_description config) (lit "configFile")
      (mkIcon (lit "file") None) (lit "exists")
      (mkCommand (lit "vscode-settings.openConfigFile")
                 (lit "Open Config File") [fileName config])
  else
    mkConfigFile config collapsibleState (label config)
      (item_description config) (lit "missingConfigFile")
      (mkIcon (lit "file-add") (Some (lit "errorForeground"))) (lit "missing")
      (mkCommand (lit "vscode-settings.createConfigFile")
                 (lit "Create Config File") [fileName config]).

Section ConfigFiles.
Variable fs : FileSystem.
Variable path_join : str -> str -> str.

(** [ConfigFilesProvider.getConfigFiles()] (lines 396-417);
    [workspaceFolder] is [None] when no folder is open. *)
Definition getConfigFiles (workspaceFolder : option str) : list ConfigFile :=
  match workspaceFolder with
  | None => []
  | Some fsPath =>
      let vscodeDir := path_join fsPath (lit ".vscode") in
      let configFiles :=
        [ (lit "settings.json", lit "Settings",
           lit "Workspace settings configuration");
          (lit "launch.json", lit "Launch", lit "Debug configuration");
          (lit "extensions.json", lit "Extensions",
           lit "Extension recommendations") ] in
      map (fun '(fileName, label, description) =>
             let filePath := path_join vscodeDir fileName in
             let exists_ := existsSync fs filePath in
             new_ConfigFile (mkItem label description fileName exists_)
                            StateNone)
          configFiles
  end.
End ConfigFiles.

(** [new vscode.TreeItem(label, collapsibleState)] *)
Record TreeItem : Type := mkTreeItem {
  item_label : str; item_state : CollapsibleState }.

(** A string in a template literal; [None] is [undefined]. *)
Definition interpolate (s : option str) : str :=
  match s with Some s => s | None => lit "undefined" end.

(** [s || fallback] for a string or [undefined]. *)
Definition or_default (s : option str) (fallback : str) : str :=
  match s with Some (c :: s') => c :: s' | _ => fallback end.

(** The active editor: the path of its document, the text, and the line
    of the cursor. *)
Record Editor : Type := mkEditor {
  fsPath : str; document : str; cursor_line : nat }.

Section PropHelper.
Variable configDocs : list (str * DocEntry).
(** The text of a member inherited from [Object.prototype] when it is
    appended to a string. *)
Variable String_of_inherited : str -> str.

(** [`  ${enumValue}${desc ? ': ' + desc : ''}`] with
    [desc = enumDescriptions?.[enumValue] || ''] *)
Definition enumLabel (enumDescriptions : option (list (str * str)))
           (enumValue : str) : str :=
  let suffix :=
    match enumDescriptions with
    | None => []
    | Some table =>
        match lookup enumValue table with
        | Some [] => []
        | Some desc => lit ": " ++ desc
        | None =>
            if array_includes enumValue Object_prototype_names
            then lit ": " ++ String_of_inherited enumValue
            else []
        end
    end in
  lit "  " ++ enumValue ++ suffix.

(** [HelloWorldProvider.updateContent] (lines 426-443): the new
    [content]. *)
Definition updateContent (key value : str) (description type : option str)
           (enumValues : option (list str))
           (enumDescriptions : option (list (str * str))) : list TreeItem :=
  [ mkTreeItem (key ++ lit ": " ++ value) Expanded;
    mkTreeItem (lit "Type: " ++ or_default type (lit "unknown")) StateNone;
    mkTreeItem (lit "Description: " ++ interpolate description) StateNone ]
  ++ match enumValues with
     | Some (v :: vs) =>
         mkTreeItem (lit "Possible Values:") Expanded
         :: map (fun enumValue =>
                   mkTreeItem (enumLabel enumDescriptions enumValue) StateNone)
                (v :: vs)
     | _ => []
     end.

(** [clearContent()] *)
Definition clearContent : list TreeItem := [].

(** [updatePropHelperContent()] (lines 724-748): the content of the
    panel afterwards; [activeEditor] is [None] when there is none. *)
Definition updatePropHelperContent (activeEditor : option Editor)
  : list TreeItem :=
  match activeEditor with
  | None => clearContent
  | Some editor =>
      if negb (isConfigFile (fsPath editor)) then clearContent
      else
        match Extension.getPropertyAtPosition (document editor)
                                              (cursor_line editor) with
        | Some property =>
            match getConfigDocumentation configDocs (key property) with
            | Doc doc =>
                updateContent (key property) (value property)
                  (Some (description doc)) (Some (type doc))
                  (enum doc) (enumDescriptions doc)
            | Inherited _ =>
                updateContent (key property) (value property)
                  None None None None
            end
        | None => clearContent
        end
  end.
End PropHelper.

End Views.

(* ================================================================== *)
(** * The views of the older variant *)
(* ================================================================== *)

Module LegacyViews.
Import JS Json Model Views.

(** ** Platform functions the views call *)

Definition space : char := 32%N.

(** [s.split(sep)] for a separator of one character. *)
Fixpoint split_at (sep : char) (cur : str) (s : str) : list str :=
  match s with
  | [] => [rev cur]
  | c :: s' =>
      if N.eqb c sep then rev cur :: split_at sep [] s'
      else split_at sep (c :: cur) s'
  end.

Definition split (sep : char) (s : str) : list str := split_at sep [] s.

(** [array.join(sep)] *)
Fixpoint join (sep : str) (l : list str) : str :=
  match l with
  | [] => []
  | [x] => x
  | x :: rest => x ++ sep ++ join sep rest
  end.

(** [s.substring(0, n)] *)
Definition substring_0 (n : nat) (s : str) : str := firstn n s.

Section Sort.
Variable A : Type.
Variable comparefn : A -> A -> Z.

Fixpoint insert (x : A) (sorted : list A) : list A :=
  match sorted with
  | [] => [x]
  | y :: rest =>
      if (comparefn y x >? 0)%Z then x :: sorted else y :: insert x rest
  end.

(** [array.sort(comparefn)] for a consistent comparator: the sorted
    order in which elements that compare equal keep their places,
    computed by insertion. *)
Definition sort (l : list A) : list A :=
  fold_left (fun sorted x => insert x sorted) l [].
End Sort.

(** ** [ConfigFilesProvider] (lines 50-116) *)

Section ConfigFiles.
Variable fs : Extension.FileSystem.
Variable path_join : str -> str -> str.
Variable localeCompare : str -> str -> Z.

(** The comparator of [configFiles.sort] (lines 108-112). *)
Definition byExistence (a b : ConfigFileItem) : Z :=
  if exists_ a && negb (exists_ b) then (-1)%Z
  else if negb (exists_ a) && exists_ b then 1%Z
  else localeCompare (label a) (label b).

(** [getConfigFiles()] (lines 87-115) *)
Definition getConfigFiles (workspaceFolder : option str) : list ConfigFile :=
  match workspaceFolder with
  | None => []
  | Some fsPath =>
      let vscodeDir := path_join fsPath (lit ".vscode") in
      let configFiles :=
        [ mkItem (lit "settings.json") (lit "Workspace settings")
                 (lit "settings.json") false;
          mkItem (lit "launch.json") (lit "Debug configurations")
                 (lit "launch.json") false;
          mkItem (lit "extensions.json") (lit "Recommended extensions")
                 (lit "extensions.json") false ] in
      let configFiles :=
        map (fun config =>
               let filePath := path_join vscodeDir (fileName config) in
               mkItem (label config) (item_description config)
                      (fileName config)
                      (Extension.existsSync fs filePath))
            configFiles in
      let configFiles := sort byExistence configFiles in
      map (fun config => new_ConfigFile config StateNone) configFiles
  end.

(** [getChildren(element)] (lines 65-85): the help item, then the
    files. *)
Definition getChildren (workspaceFolder : option str)
           (element : option ConfigFile) : list ConfigFile :=
  match element with
  | None =>
      let configFiles := getConfigFiles workspaceFolder in
      let helpItem :=
        new_ConfigFile
          (mkItem (lit "Configuration files will appear here") (lit "Info")
                  [] true)
          StateNone in
      let helpItem :=
        mkConfigFile (config helpItem) (collapsibleState helpItem)
          (tree_label helpItem)
          (lit "VS Code configuration files for this workspace")
          (lit "helpItem")
          (mkIcon (lit "info") (Some (lit "descriptionForeground")))
          []
          (item_command helpItem) in
      helpItem :: configFiles
  | Some _ => []
  end.
End ConfigFiles.

(** ** [HelloWorldProvider] (lines 118-253) *)

(** The fields of the provider. *)
Record HelperState : Type := mkState {
  currentKey : str;
  currentValue : str;
  currentDescription : str;
  currentValueType : str;
  currentEnumValues : option (list str);
  currentEnumDescriptions : option (list (str * str));
  hasContent : bool }.

(** A parameter with the default value [''] ([None] is [undefined]). *)
Definition or_empty (s : option str) : str :=
  match s with Some s => s | None => [] end.

(** [updateContent(...)] (lines 136-145) *)
Definition updateContent (key value : str) (description valueType : option str)
           (enumValues : option (list str))
           (enumDescriptions : option (list (str * str))) : HelperState :=
  mkState key value (or_empty description) (or_empty valueType)
          enumValues enumDescriptions true.

(** [clearContent()] (lines 147-156) *)
Definition clearContent : HelperState :=
  mkState [] [] [] [] None None false.

(** What is shown beside a label: a text, or a member inherited from
    [Object.prototype] that took the place of one. *)
Inductive Shown : Type :=
| Text (s : str)
| Member (name : str).

Record HelperItem : Type := mkHelperItem {
  helper_label : str;
  helper_state : CollapsibleState;
  helper_tooltip : str;
  helper_icon : ThemeIcon;
  helper_description : option Shown }.

(** The loop of lines 222-233 over the words that are left; [lines] and
    [currentLine] are the variables of the source. *)
Fixpoint wrapWords (words : list str) (lines : list str) (currentLine : str)
  : list str * str :=
  match words with
  | [] => (lines, currentLine)
  | word :: rest =>
      if Nat.ltb 50 (length (currentLine ++ word)) then
        match currentLine with
        | _ :: _ =>
            wrapWords rest (lines ++ [trim currentLine]) (word ++ [space])
        | [] => wrapWords rest (lines ++ [word]) currentLine
        end
      else wrapWords rest lines (currentLine ++ word ++ [space])
  end.

(** The lines the description is split into (lines 218-236). *)
Definition descriptionLines (currentDescription : str) : list str :=
  let words := split space currentDescription in
  let '(lines, currentLine) := wrapWords words [] [] in
  match trim currentLine with
  | _ :: _ => lines ++ [trim currentLine]
  | [] => lines
  end.

Section Helper.
(** The text of a member inherited from [Object.prototype] in a
    template literal. *)
Variable String_of_inherited : str -> str.

(** The body of [currentEnumValues.forEach] (lines 201-208).  A member
    inherited from [Object.prototype] is truthy, and its [length] (the
    number of parameters of a function, [undefined] for an object) is
    not above 50. *)
Definition enumItem (currentEnumDescriptions : option (list (str * str)))
           (enumValue : str) : HelperItem :=
  let description :=
    match currentEnumDescriptions with
    | None => Text (lit "No description available")
    | Some table =>
        match lookup enumValue table with
        | Some [] => Text (lit "No description available")
        | Some d => Text d
        | None =>
            if array_includes enumValue Object_prototype_names
            then Member enumValue
            else Text (lit "No description available")
        end
    end in
  mkHelperItem
    ([32; 32; 8226; 32]%N ++ enumValue)
    StateNone
    (enumValue ++ lit ": "
       ++ match description with
          | Text d => d
          | Member name => String_of_inherited name
          end)
    (mkIcon (lit "symbol-enum-member") None)
    (Some match description with
          | Text d =>
              Text (if Nat.ltb 50 (length d)
                    then substring_0 47 d ++ lit "..."
                    else d)
          | Member name => Member name
          end).

(** [getChildren(element)] (lines 162-252) in the state [st]. *)
Definition helperChildren (st : HelperState) (element : option HelperItem)
  : list HelperItem :=
  match element with
  | Some _ => []
  | None =>
      if negb (hasContent st) then
        [ mkHelperItem (lit "No content to show") StateNone
            (lit "Position cursor on a JSON property to see details")
            (mkIcon (lit "info") None) None ]
      else
        let items :=
          [ mkHelperItem ([55357; 56524; 32]%N ++ currentKey st) StateNone
              (lit "Property: " ++ currentKey st)
              (mkIcon (lit "symbol-property") None) None;
            mkHelperItem ([55357; 56462; 32]%N ++ currentValue st) StateNone
              (lit "Current value: " ++ currentValue st)
              (mkIcon (lit "symbol-constant") None) None ] in
        let items :=
          match currentValueType st with
          | _ :: _ =>
              items ++
              [ mkHelperItem
                  ([55356; 57335; 65039; 32]%N ++ lit "Type: "
                     ++ currentValueType st)
                  StateNone
                  (lit "Data type: " ++ currentValueType st)
                  (mkIcon (lit "symbol-interface") None) None ]
          | [] => items
          end in
        let items :=
          match currentEnumValues st with
          | Some (v :: vs) =>
              items ++
              mkHelperItem ([55356; 57263; 32]%N ++ lit "Possible Values")
                Expanded
                (lit "Available options for " ++ currentKey st)
                (mkIcon (lit "list-selection") None) None
              :: map (enumItem (currentEnumDescriptions st)) (v :: vs)
          | _ => items
          end in
        match currentDescription st with
        | _ :: _ =>
            let descItem :=
              mkHelperItem ([55357; 56534; 32]%N ++ lit "Description")
                Expanded (currentDescription st)
                (mkIcon (lit "book") None) None in
            let lines := descriptionLines (currentDescription st) in
            let descChildren :=
              map (fun line =>
                     mkHelperItem (lit "  " ++ line) StateNone
                       (currentDescription st)
                       (mkIcon (lit "circle-outline") None) None)
                  (firstn 3 lines) in
            items ++ descItem :: descChildren
        | [] => items
        end
  end.
End Helper.

(** ** The handler of cursor movements (lines 1719-1752) *)

Section PropHelper.
Variable JSON_parse : str -> option json.
Variable JSON_stringify : json -> str.
Variable configDocs : list (str * DocEntry).

(** [updatePropHelperContent()]: the state of the provider afterwards;
    [None] when the handler throws, which it does where it reads
    [doc.description.substring] of a member that has no [description]. *)
Definition updatePropHelperContent (activeEditor : option Editor)
  : option HelperState :=
  match activeEditor with
  | None => Some clearContent
  | Some editor =>
      if negb (isConfigFile (fsPath editor)) then Some clearContent
      else
        match Legacy.getPropertyAtPosition JSON_parse JSON_stringify
                (document editor) (cursor_line editor) with
        | Some property =>
            match getConfigDocumentation configDocs (key property) with
            | Doc doc =>
                let valueTypeInfo :=
                  match enum doc with
                  | Some values =>
                      type doc ++ lit " (" ++ join (lit " | ") values
                        ++ lit ")"
                  | None => type doc
                  end in
                Some (updateContent (key property) (value property)
                        (Some (description doc)) (Some valueTypeInfo)
                        (enum doc) (enumDescriptions doc))
            | Inherited _ => None
            end
        | None => Some clearContent
        end
  end.
End PropHelper.

End LegacyViews.

(* ================================================================== *)
(** * Applying a configuration template ([src/src/extension.ts]) *)
(* ================================================================== *)

Module Templates.
Import JS Json Model.

(** [interface ConfigTemplate] *)
Record ConfigTemplate : Type := mkTemplate {
  template_name : str;
  template_description : str;
  content : json;
  applicableTypes : list str }.

(** ** Object spread *)

Definition is_digit (c : char) : bool := (N.leb 48 c && N.leb c 57)%N.

Definition digits_value (k : str) : N :=
  fold_left (fun acc c => (10 * acc + (c - 48))%N) k 0%N.

(** An array index: the canonical decimal spelling of an integer below
    [2^32 - 1].  Such keys come first among the keys of an object, in
    ascending order. *)
Definition array_index (k : str) : option N :=
  match k with
  | [] => None
  | c :: rest =>
      if forallb is_digit k
         && (negb (N.eqb c 48) || match rest with [] => true | _ => false end)
         && N.ltb (digits_value k) 4294967295
      then Some (digits_value k)
      else None
  end.

(** A new key that is an array index takes its place among the indices. *)
Fixpoint define_index (n : N) (k : str) (v : json) (props : list (str * json))
  : list (str * json) :=
  match props with
  | [] => [(k, v)]
  | (k', v') :: rest =>
      if str_eqb k k' then (k', v) :: rest
      else
        match array_index k' with
        | Some m =>
            if N.ltb m n then (k', v') :: define_index n k v rest
            else (k, v) :: props
        | None => (k, v) :: props
        end
  end.

(** Any other new key goes to the end. *)
Fixpoint define_name (k : str) (v : json) (props : list (str * json))
  : list (str * json) :=
  match props with
  | [] => [(k, v)]
  | (k', v') :: rest =>
      if str_eqb k k' then (k', v) :: rest
      else (k', v') :: define_name k v rest
  end.

(** [CreateDataProperty]: a key that is there keeps its place and gets
    the new value. *)
Definition define (props : list (str * json)) (kv : str * json)
  : list (str * json) :=
  match array_index (fst kv) with
  | Some n => define_index n (fst kv) (snd kv) props
  | None => define_name (fst kv) (snd kv) props
  end.

(** [{ ...a, ...b }]: the own enumerable properties of [a], then those
    of [b], are defined on a fresh object. *)
Definition spread (a b : json) : json :=
  JObj (fold_left define (enumerable a ++ enumerable b) []).

(** ** The command (lines 657-693) *)

(** What the command did to the settings file. *)
Inductive Outcome : Type :=
| NoWorkspaceFolder                       (* error message, nothing done *)
| Thrown                                  (* [mkdirSync] threw *)
| Written (settingsPath : str) (text : str)
| NotWritten (settingsPath : str) (text : str).   (* [writeFileSync] threw *)

Section Apply.
Variable fs : Extension.FileSystem.
Variable path_join : str -> str -> str.
Variable mkdirSync : str -> bool.              (* [false]: it throws *)
Variable readFileSync : str -> option str.     (* [None]: it throws *)
Variable writeFileSync : str -> str -> bool.   (* [false]: it throws *)
Variable JSON_parse : str -> option json.      (* [None]: SyntaxError *)
Variable JSON_stringify_4 : json -> str.       (* [JSON.stringify(v, null, 4)] *)

(** [existingSettings] after lines 671-679. *)
Definition existingSettings (settingsPath : str) : json :=
  if Extension.existsSync fs settingsPath then
    match readFileSync settingsPath with
    | Some content =>
        match JSON_parse content with
        | Some parsed => parsed
        | None => JObj []
        end
    | None => JObj []
    end
  else JObj [].

(** [mergedSettings] (line 681). *)
Definition mergedSettings (settingsPath : str) (template : ConfigTemplate)
  : json :=
  spread (existingSettings settingsPath) (content template).

Definition applyConfigTemplate (workspaceFolder : option str)
           (template : ConfigTemplate) : Outcome :=
  match workspaceFolder with
  | None => NoWorkspaceFolder
  | Some fsPath =>
      let vscodeDir := path_join fsPath (lit ".vscode") in
      let settingsPath := path_join vscodeDir (lit "settings.json") in
      if negb (Extension.existsSync fs vscodeDir) && negb (mkdirSync vscodeDir)
      then Thrown
      else
        let text := JSON_stringify_4 (mergedSettings settingsPath template) in
        if writeFileSync settingsPath text
        then Written settingsPath text
        else NotWritten settingsPath text
  end.
End Apply.

End Templates.

(* ================================================================== *)
(** * Notions used to state facts about the views *)
(* ================================================================== *)

Module ViewNotions.
Import JS Json Model.

(** Comparison of two strings unit by unit. *)
Fixpoint compare_units (a b : str) : comparison :=
  match a, b with
  | [], [] => Eq
  | [], _ :: _ => Lt
  | _ :: _, [] => Gt
  | x :: a', y :: b' =>
      match N.compare x y with
      | Eq => compare_units a' b'
      | c => c
      end
  end.

(** A collation that puts the three file names in the order of the
    alphabet, which for them is the order of their units. *)
Definition alphabetical (localeCompare : str -> str -> Z) : Prop :=
  forall a b, In a configFileNames -> In b configFileNames ->
              (localeCompare a b ?= 0)%Z = compare_units a b.

(** An object as JavaScript has it: no key twice. *)
Definition distinct_keys (j : json) : Prop := NoDup (keys j).

End ViewNotions.

(* ================================================================== *)
(** * Inputs of the examples about the views *)
(* ================================================================== *)

Module ViewInputs.
Import JS Json Model Templates ViewNotions.

(** A collation by units. *)
Definition unit_order (a b : str) : Z :=
  match compare_units a b with Lt => (-1)%Z | Eq => 0%Z | Gt => 1%Z end.

(** The line ["toString": true] *)
Definition toString_line : str := quoted (lit "toString") ++ lit ": true".

Definition four : json := JNum (number_of_nat 4).
Definition two : json := JNum (number_of_nat 2).

(** A settings file with two settings ... *)
Definition stored_settings : json :=
  JObj [(lit "editor.tabSize", two); (lit "files.eol", JStr [10%N])].

(** ... and a template that sets one of them and a third. *)
Definition python_template : ConfigTemplate :=
  mkTemplate (lit "Python") (lit "Settings for Python projects")
    (JObj [(lit "editor.tabSize", four);
           (lit "editor.formatOnSave", JBool true)])
    [lit "Python"].

Definition settings_file : str := lit "/w/.vscode/settings.json".

End ViewInputs.

(* ================================================================== *)
(** * Notions used to compare workspaces *)
(* ================================================================== *)

Module WorkspaceNotions.
Import JS Model Extension.


End WorkspaceNotions.

(* ================================================================== *)
(** * Notions used to describe merged settings *)
(* ================================================================== *)

Module TemplateNotions.
Import JS Json Model Templates.

(** No key is an array index (the keys of settings are dotted names). *)
Definition plain_keys (j : json) : Prop :=
  Forall (fun k => array_index k = None) (keys j).

(** A property with the value that [b] has under its key, if any. *)
Definition overridden (b : list (str * json)) (kv : str * json)
  : str * json :=
  (fst kv, match lookup (fst kv) b with Some v => v | None => snd kv end).

(** A property whose key [a] does not have. *)
Definition is_new (a : list (str * json)) (kv : str * json) : bool :=
  negb (array_includes (fst kv) (map fst a)).

(** The properties of [a] in their order, with the values of [b] where
    [b] has the key, and then the properties of [b] that are new, in
    their order. *)
Definition layout (a b : list (str * json)) : list (str * json) :=
  map (overridden b) a ++ filter (is_new a) b.

End TemplateNotions.

(* ================================================================== *)
(** * Facts about the matcher *)
(* ================================================================== *)

Module JSFacts.
Import JS Spec.

Lemma consumed_app (x s : str) : consumed (x ++ s) s = x.
Proof.
  unfold consumed. rewrite length_app, Nat.add_sub.
  induction x as [|c x IH]; simpl; [reflexivity | now rewrite IH].
Qed.

Lemma consumed_nil (s : str) : consumed s s = [].
Proof. exact (consumed_app [] s). Qed.

Section Repetition.
Variable A : Type.
Variable cc : cclass.

(** A greedy repetition takes the whole run when the continuation
    accepts what follows it. *)
Lemma rep_greedy_all (x : str) :
  forall (min : nat) (s : str) (k : str -> option A) (r : A),
    passes cc x -> min <= length x -> blocked cc s -> k s = Some r ->
    rep_greedy cc min (x ++ s) k = Some r.
Proof.
  induction x as [|c x IH]; intros min s k r Hx Hmin Hs Hk.
  - simpl in Hmin. assert (min = 0) by lia. subst min. simpl.
    destruct s as [|c s]; simpl; [assumption|].
    simpl in Hs. now rewrite Hs.
  - inversion Hx as [|? ? Hc Hx']; subst. simpl.
    rewrite Hc.
    rewrite (IH (pred min) s k r); auto.
    simpl in Hmin. lia.
Qed.

(** Whatever a repetition returns, the continuation returned it on a
    suffix reached through characters of the class. *)
Lemma rep_greedy_inv (s : str) :
  forall (min : nat) (k : str -> option A) (r : A),
    rep_greedy cc min s k = Some r ->
    exists x s', s = x ++ s' /\ min <= length x /\ passes cc x /\ k s' = Some r.
Proof.
  induction s as [|c s IH]; intros min k r H.
  - simpl in H. destruct min; [|discriminate].
    exists [], []. repeat split; auto. constructor.
  - simpl in H.
    assert (Hstop : match min with 0 => k (c :: s) | S _ => None end = Some r ->
                    exists x s', c :: s = x ++ s' /\ min <= length x /\
                                 passes cc x /\ k s' = Some r).
    { destruct min; [|discriminate]. intro Hk.
      exists [], (c :: s). repeat split; auto. constructor. }
    destruct (cc_test cc c) eqn:Hc; [|auto].
    destruct (rep_greedy cc (pred min) s k) as [r'|] eqn:Hrec; [|auto].
    injection H as ->.
    destruct (IH _ _ _ Hrec) as (x & s' & -> & Hmin & Hx & Hk).
    exists (c :: x), s'. repeat split; auto.
    + simpl. lia.
    + constructor; assumption.
Qed.

(** A lazy repetition stops at the first length the continuation
    accepts. *)
Lemma rep_lazy_first (x : str) :
  forall (min : nat) (s : str) (k : str -> option A) (r : A),
    passes cc x -> min <= length x ->
    (forall x1 x2, x = x1 ++ x2 -> x2 <> [] -> min <= length x1 ->
                   k (x2 ++ s) = None) ->
    k s = Some r ->
    rep_lazy cc min (x ++ s) k = Some r.
Proof.
  induction x as [|c x IH]; intros min s k r Hx Hmin Hfail Hk.
  - simpl in Hmin. assert (min = 0) by lia. subst min.
    destruct s; simpl; now rewrite Hk.
  - inversion Hx as [|? ? Hc Hx']; subst.
    assert (Hmore : rep_lazy cc (pred min) (x ++ s) k = Some r).
    { apply IH; auto.
      - simpl in Hmin. lia.
      - intros x1 x2 E Hne Hlen.
        apply (Hfail (c :: x1) x2); [now rewrite E | assumption | simpl; lia]. }
    simpl. rewrite Hc, Hmore.
    destruct min; [|reflexivity].
    assert (E : k ((c :: x) ++ s) = None)
      by (apply (Hfail [] (c :: x) eq_refl); [discriminate | simpl; lia]).
    simpl in E. now rewrite E.
Qed.

Lemma rep_lazy_inv (s : str) :
  forall (min : nat) (k : str -> option A) (r : A),
    rep_lazy cc min s k = Some r ->
    exists x s', s = x ++ s' /\ min <= length x /\ passes cc x /\ k s' = Some r.
Proof.
  induction s as [|c s IH]; intros min k r H.
  - simpl in H. destruct min; [|discriminate].
    destruct (k []) eqn:Hk; [|discriminate]. injection H as ->.
    exists [], []. repeat split; auto. constructor.
  - assert (Hmore : (if cc_test cc c then rep_lazy cc (pred min) s k else None) = Some r ->
                    exists x s', c :: s = x ++ s' /\ min <= length x /\
                                 passes cc x /\ k s' = Some r).
    { destruct (cc_test cc c) eqn:Hc; [|discriminate]. intro Hrec.
      destruct (IH _ _ _ Hrec) as (x & s' & -> & Hmin & Hx & Hk).
      exists (c :: x), s'. repeat split; auto.
      - simpl. lia.
      - constructor; assumption. }
    simpl in H. destruct min; [|auto].
    destruct (k (c :: s)) eqn:Hk; [|auto].
    injection H as ->.
    exists [], (c :: s). repeat split; auto. constructor.
Qed.
End Repetition.

(** ** Unfolding equations of [rmatch] *)

Section Unfold.
Variable A : Type.
Implicit Types (k : str -> captures -> option A).

Lemma rmatch_seq r1 r2 s caps k :
  rmatch (Seq r1 r2) s caps k
  = rmatch r1 s caps (fun s' caps' => rmatch r2 s' caps' k).
Proof. reflexivity. Qed.

Lemma rmatch_atom_cons cc c s caps k :
  cc_test cc c = true -> rmatch (Atom cc) (c :: s) caps k = k s caps.
Proof. intro H. simpl. now rewrite H. Qed.

Lemma rmatch_atom_inv cc s caps k (r : A) :
  rmatch (Atom cc) s caps k = Some r ->
  exists c s', s = c :: s' /\ cc_test cc c = true /\ k s' caps = Some r.
Proof.
  destruct s as [|c s]; simpl; [discriminate|].
  destruct (cc_test cc c) eqn:Hc; [|discriminate].
  intro H. now exists c, s.
Qed.

Lemma rmatch_group n r s caps k :
  rmatch (Group n r) s caps k
  = rmatch r s caps (fun s' caps' => k s' ((n, consumed s s') :: caps')).
Proof. reflexivity. Qed.

Lemma rmatch_greedy min cc s caps k :
  rmatch (Rep true min cc) s caps k = rep_greedy cc min s (fun s' => k s' caps).
Proof. reflexivity. Qed.

Lemma rmatch_lazy min cc s caps k :
  rmatch (Rep false min cc) s caps k = rep_lazy cc min s (fun s' => k s' caps).
Proof. reflexivity. Qed.

Lemma rmatch_alt r1 r2 s caps k :
  rmatch (Alt r1 r2) s caps k
  = match rmatch r1 s caps k with
    | Some x => Some x
    | None => rmatch r2 s caps k
    end.
Proof. reflexivity. Qed.

Lemma rmatch_eol m s caps k :
  rmatch (Eol m) s caps k = if at_eol m s then k s caps else None.
Proof. reflexivity. Qed.
End Unfold.

(** ** The leftmost search *)

Lemma exec_from_skip (r : regex) (pre : str) :
  forall (acc s : str),
    (forall p1 p2, pre = p1 ++ p2 -> p2 <> [] -> match_here r (p2 ++ s) = None) ->
    exec_from r acc (pre ++ s) = exec_from r (rev pre ++ acc) s.
Proof.
  induction pre as [|c pre IH]; intros acc s Hfail; [reflexivity|].
  assert (E : match_here r ((c :: pre) ++ s) = None)
    by (apply (Hfail [] (c :: pre) eq_refl); discriminate).
  simpl in E |- *. rewrite E.
  rewrite IH.
  - now rewrite <- app_assoc.
  - intros p1 p2 E2 Hne. apply (Hfail (c :: p1) p2); [now rewrite E2 | assumption].
Qed.

Lemma exec_from_inv (r : regex) (s : str) :
  forall (acc : str) (m : MatchResult),
    exec_from r acc s = Some m ->
    exists p s', s = p ++ s' /\ match_here r s' = Some (after m, groups m)
                 /\ before m = rev acc ++ p.
Proof.
  induction s as [|c s IH]; intros acc m H; simpl in H.
  - destruct (match_here r []) as [[rest caps]|] eqn:E; [|discriminate].
    injection H as <-. exists [], []. simpl. now rewrite app_nil_r.
  - destruct (match_here r (c :: s)) as [[rest caps]|] eqn:E.
    + injection H as <-. exists [], (c :: s). simpl. now rewrite app_nil_r.
    + destruct (IH _ _ H) as (p & s' & -> & Hm & Hb).
      exists (c :: p), s'. repeat split; auto.
      rewrite Hb. simpl. now rewrite <- app_assoc.
Qed.

End JSFacts.


(* ================================================================== *)
(** * Facts about the two line patterns *)
(* ================================================================== *)

Module PatternFacts.
Import JS Model Spec JSFacts.

Lemma passes_not_char (c : char) (x : str) :
  passes (CNotChar c) x <-> ~ In c x.
Proof.
  unfold passes. rewrite Forall_forall. split.
  - intros H Hin. specialize (H c Hin). simpl in H.
    now rewrite N.eqb_refl in H.
  - intros H y Hy. simpl. apply negb_true_iff, N.eqb_neq.
    intros ->. contradiction.
Qed.

Lemma test_char (c x : char) : cc_test (CChar c) x = true <-> x = c.
Proof. simpl. apply N.eqb_eq. Qed.

(** Both patterns begin with the quote: no match starts elsewhere. *)
Lemma no_match_without_quote (r : regex) (s : str) :
  (match s with [] => True | c :: _ => c <> dq end) ->
  match_here (Seq (Atom (CChar dq)) r) s = None.
Proof.
  unfold match_here. destruct s as [|c s]; simpl; [reflexivity|].
  intro H. apply N.eqb_neq in H. now rewrite H.
Qed.

(** ** Anatomy of a key-value match *)

Lemma length_pos_nonnil (x : str) : 1 <= length x -> x <> [].
Proof. destruct x; simpl; [lia | discriminate]. Qed.

Lemma keyValuePattern_inv (s rest : str) (caps : captures) :
  match_here keyValuePattern s = Some (rest, caps) ->
  exists k v, kv_shape s k v /\ rest = [] /\ caps = [(2, v); (1, k)].
Proof.
  unfold match_here, keyValuePattern. intro H.
  rewrite rmatch_seq in H.
  apply rmatch_atom_inv in H. destruct H as (c & s1 & -> & Hc & H).
  apply test_char in Hc. subst c.
  rewrite rmatch_seq, rmatch_group, rmatch_greedy in H.
  apply rep_greedy_inv in H. destruct H as (k & s2 & -> & Hk1 & Hk & H).
  rewrite consumed_app in H.
  rewrite rmatch_seq in H.
  apply rmatch_atom_inv in H. destruct H as (c & s3 & -> & Hc & H).
  apply test_char in Hc. subst c.
  rewrite rmatch_seq, rmatch_greedy in H.
  apply rep_greedy_inv in H. destruct H as (sp1 & s4 & -> & _ & Hsp1 & H).
  rewrite rmatch_seq in H.
  apply rmatch_atom_inv in H. destruct H as (c & s5 & -> & Hc & H).
  apply test_char in Hc. subst c.
  rewrite rmatch_seq, rmatch_greedy in H.
  apply rep_greedy_inv in H. destruct H as (sp2 & s6 & -> & _ & Hsp2 & H).
  rewrite rmatch_seq, rmatch_group, rmatch_lazy in H.
  apply rep_lazy_inv in H. destruct H as (v & s7 & -> & Hv1 & Hv & H).
  rewrite consumed_app in H.
  assert (Hshape : forall tl, closing tl ->
             kv_shape (dq :: k ++ dq :: sp1 ++ colon :: sp2 ++ v ++ tl) k v).
  { intros tl Htl. exists sp1, sp2, tl. repeat split; auto.
    - now apply length_pos_nonnil.
    - now apply passes_not_char.
    - now apply length_pos_nonnil. }
  rewrite rmatch_alt in H.
  match type of H with
  | match ?X with _ => _ end = _ => destruct X as [[rest' caps']|] eqn:Hfirst
  end.
  - injection H as -> ->.
    rewrite rmatch_seq in Hfirst.
    apply rmatch_atom_inv in Hfirst. destruct Hfirst as (c & s8 & -> & Hc & H).
    apply test_char in Hc. subst c.
    rewrite rmatch_seq, rmatch_greedy in H.
    apply rep_greedy_inv in H. destruct H as (ws & s9 & -> & _ & Hws & H).
    rewrite rmatch_eol in H.
    destruct s9 as [|c s9]; [|discriminate]. simpl in H. injection H as <- <-.
    exists k, v. repeat split; auto.
    apply Hshape. right. exists ws. now rewrite app_nil_r.
  - rewrite rmatch_eol in H.
    destruct s7 as [|c s7]; [|discriminate]. simpl in H. injection H as <- <-.
    exists k, v. repeat split; auto.
    apply Hshape. now left.
Qed.

(** Whatever [exec] finds for [keyValuePattern]: the captured key is not
    empty and free of quotes, the captured fragment is not empty. *)
Lemma exec_keyValuePattern_groups (line : str) (m : MatchResult) :
  exec keyValuePattern line = Some m ->
  exists p k v,
    kv_shape p k v /\ (exists pre, line = pre ++ p)
    /\ groups m = [(2, v); (1, k)].
Proof.
  intro H. apply exec_from_inv in H.
  destruct H as (pre & s' & -> & Hm & _).
  apply keyValuePattern_inv in Hm. destruct Hm as (k & v & Hs & _ & Hg).
  exists s', k, v. repeat split; auto. now exists pre.
Qed.

End PatternFacts.


Module LineFacts.
Import JS Model Spec JSFacts PatternFacts.

(** ** The first quoted token *)

Lemma keyOnlyPattern_here (k post : str) :
  k <> [] -> ~ In dq k ->
  match_here keyOnlyPattern (quoted k ++ post) = Some (post, [(1, k)]).
Proof.
  intros Hne Hk. unfold match_here, keyOnlyPattern, quoted.
  simpl app. rewrite <- app_assoc. simpl app.
  rewrite rmatch_seq, rmatch_atom_cons by reflexivity.
  rewrite rmatch_seq, rmatch_group, rmatch_greedy.
  erewrite rep_greedy_all; [reflexivity | | | | ].
  - now apply passes_not_char.
  - destruct k; [contradiction | simpl; lia].
  - reflexivity.
  - rewrite consumed_app. reflexivity.
Qed.

Lemma keyOnlyPattern_two_quotes (s : str) :
  match_here keyOnlyPattern (dq :: dq :: s) = None.
Proof. reflexivity. Qed.

Lemma exec_skip_unquoted (r : regex) (u acc s : str) :
  ~ In dq u ->
  exec_from (Seq (Atom (CChar dq)) r) acc (u ++ s)
  = exec_from (Seq (Atom (CChar dq)) r) (rev u ++ acc) s.
Proof.
  intro Hu. apply exec_from_skip. intros p1 p2 -> Hne.
  apply no_match_without_quote.
  destruct p2 as [|c p2]; [contradiction|]. simpl.
  intros ->. apply Hu, in_or_app. right. now left.
Qed.

Lemma exec_keyOnlyPattern_quotes (k post : str) (n : nat) :
  forall acc,
    exec_from keyOnlyPattern acc (repeat dq n ++ quoted k ++ post)
    = exec_from keyOnlyPattern (repeat dq n ++ acc) (quoted k ++ post).
Proof.
  induction n as [|n IH]; intro acc; [reflexivity|].
  assert (E : exists t, repeat dq n ++ quoted k ++ post = dq :: t)
    by (destruct n; simpl; eauto).
  destruct E as [t E].
  change (repeat dq (S n) ++ quoted k ++ post)
    with (dq :: (repeat dq n ++ quoted k ++ post)).
  cbn [exec_from]. rewrite E at 1. rewrite keyOnlyPattern_two_quotes.
  rewrite IH. f_equal. simpl.
  now rewrite app_comm_cons, repeat_cons, <- app_assoc.
Qed.

(** On a line whose first well-formed quoted token is [k], the key-only
    pattern captures [k]. *)
Lemma exec_keyOnlyPattern_first (u k post : str) (n : nat) :
  ~ In dq u -> k <> [] -> ~ In dq k ->
  exists m, exec keyOnlyPattern (u ++ repeat dq n ++ quoted k ++ post) = Some m
            /\ groups m = [(1, k)].
Proof.
  intros Hu Hne Hk. unfold exec.
  unfold keyOnlyPattern at 1. rewrite exec_skip_unquoted by assumption.
  fold keyOnlyPattern.
  rewrite exec_keyOnlyPattern_quotes.
  destruct (quoted k ++ post) as [|c t] eqn:E; [discriminate|].
  cbn [exec_from]. rewrite <- E, keyOnlyPattern_here by assumption.
  eexists. split; reflexivity.
Qed.

(** ** A well-formed key-value line *)

Lemma comma_not_space : is_space comma = false.
Proof. reflexivity. Qed.

Lemma colon_not_space : is_space colon = false.
Proof. reflexivity. Qed.

Lemma passes_app (cc : cclass) (x y : str) :
  passes cc (x ++ y) <-> passes cc x /\ passes cc y.
Proof. apply Forall_app. Qed.

(** [,\s*$] succeeds only on a comma followed by blanks up to the end. *)
Lemma comma_tail_inv (A : Type) (s : str) (caps : captures)
      (k : str -> captures -> option A) (r : A) :
  rmatch (Seq (Atom (CChar comma)) (Seq (Rep true 0 CSpace) (Eol false)))
         s caps k = Some r ->
  exists ws, s = comma :: ws /\ passes CSpace ws /\ k [] caps = Some r.
Proof.
  intro H. rewrite rmatch_seq in H.
  apply rmatch_atom_inv in H. destruct H as (c & s1 & -> & Hc & H).
  apply test_char in Hc. subst c.
  rewrite rmatch_seq, rmatch_greedy in H.
  apply rep_greedy_inv in H. destruct H as (ws & s2 & -> & _ & Hws & H).
  rewrite rmatch_eol in H. destruct s2; [|discriminate].
  exists ws. now rewrite app_nil_r.
Qed.

Lemma comma_tail_here (A : Type) (ws : str) (caps : captures)
      (k : str -> captures -> option A) :
  passes CSpace ws ->
  rmatch (Seq (Atom (CChar comma)) (Seq (Rep true 0 CSpace) (Eol false)))
         (comma :: ws) caps k = k [] caps.
Proof.
  intro Hws. rewrite rmatch_seq, rmatch_atom_cons by reflexivity.
  rewrite rmatch_seq, rmatch_greedy.
  destruct (k [] caps) as [r|] eqn:Hk.
  - rewrite <- (app_nil_r ws).
    apply rep_greedy_all; auto; [lia | exact I].
  - destruct (rep_greedy CSpace 0 ws _) eqn:E; [|reflexivity].
    apply rep_greedy_inv in E. destruct E as (x & s' & _ & _ & _ & E).
    rewrite rmatch_eol in E. destruct s'; [|discriminate].
    simpl in E. congruence.
Qed.

(** The end of the value fragment [v ++ sp3]: no proper prefix of it is
    followed by a closing comma. *)
Lemma no_early_comma (v0 sp3 x1 x2 tl ws : str) (c : char) :
  is_space c = false -> c <> comma -> passes CSpace sp3 ->
  (v0 ++ [c]) ++ sp3 = x1 ++ x2 -> x2 <> [] ->
  x2 ++ tl = comma :: ws -> passes CSpace ws -> False.
Proof.
  intros Hc Hcomma Hsp3 E Hne Ex2 Hws.
  destruct x2 as [|c2 x2']; [contradiction|].
  simpl in Ex2. injection Ex2 as -> <-.
  apply passes_app in Hws. destruct Hws as [Hx2' _].
  assert (Hno : ~ In comma sp3).
  { intro Hin. unfold passes in Hsp3. rewrite Forall_forall in Hsp3.
    specialize (Hsp3 _ Hin). simpl in Hsp3. discriminate. }
  apply app_eq_app in E. destruct E as [l [[E1 E2] | [E1 E2]]].
  - (* the comma lies at the head of [sp3], or beyond *)
    destruct l as [|c3 l].
    + simpl in E2. subst sp3. apply Hno. now left.
    + simpl in E2. injection E2 as <- E2.
      (* [v0 ++ [c] = x1 ++ comma :: l] *)
      destruct (exists_last (l := comma :: l)) as (b0 & cl & Eb); [discriminate|].
      rewrite Eb, app_assoc in E1. apply app_inj_tail in E1.
      destruct E1 as [_ <-].
      destruct b0 as [|c4 b0].
      * simpl in Eb. injection Eb as <- _. now apply Hcomma.
      * simpl in Eb. injection Eb as _ ->.
        subst x2'. apply passes_app in Hx2'. destruct Hx2' as [Hx _].
        apply passes_app in Hx. destruct Hx as [_ Hx].
        inversion Hx as [|? ? Hcs _]. simpl in Hcs. congruence.
  - (* the comma lies inside [sp3] *)
    apply Hno. rewrite E2. apply in_or_app. right. now left.
Qed.

End LineFacts.


Module ValueFacts.
Import JS Model Spec JSFacts PatternFacts LineFacts.

Lemma exec_from_here (r : regex) (acc s rest : str) (caps : captures) :
  match_here r s = Some (rest, caps) ->
  exec_from r acc s = Some (mkMatch (rev acc) (consumed s rest) rest caps).
Proof. intro H. destruct s; simpl; now rewrite H. Qed.

(** The key-value pattern at the quote of a well-formed line. *)
Lemma keyValuePattern_here (k sp1 sp2 v0 sp3 tl : str) (c : char) :
  k <> [] -> ~ In dq k ->
  passes CSpace sp1 -> passes CSpace sp2 -> passes CSpace sp3 ->
  passes CDot ((v0 ++ [c]) ++ sp3) ->
  blocked CSpace (v0 ++ [c]) ->
  is_space c = false -> c <> comma ->
  closing tl ->
  match_here keyValuePattern
    (quoted k ++ sp1 ++ colon :: sp2 ++ ((v0 ++ [c]) ++ sp3) ++ tl)
  = Some ([], [(2, (v0 ++ [c]) ++ sp3); (1, k)]).
Proof.
  intros Hne Hk Hsp1 Hsp2 Hsp3 Hv Hhead Hc Hcomma Htl.
  unfold match_here, keyValuePattern, quoted.
  simpl app. rewrite <- app_assoc. simpl app.
  rewrite rmatch_seq, rmatch_atom_cons by reflexivity.
  rewrite rmatch_seq, rmatch_group, rmatch_greedy.
  apply rep_greedy_all;
    [now apply passes_not_char | destruct k; [contradiction | simpl; lia]
    | reflexivity | ].
  rewrite consumed_app.
  rewrite rmatch_seq, rmatch_atom_cons by reflexivity.
  rewrite rmatch_seq, rmatch_greedy.
  apply rep_greedy_all; [assumption | lia | reflexivity | ].
  rewrite rmatch_seq, rmatch_atom_cons by reflexivity.
  rewrite rmatch_seq, rmatch_greedy.
  apply rep_greedy_all; [assumption | lia | | ].
  { (* the value does not start with a blank *)
    destruct v0 as [|c0 v0]; simpl in Hhead |- *; assumption. }
  rewrite rmatch_seq, rmatch_group, rmatch_lazy.
  apply rep_lazy_first.
  - assumption.
  - rewrite !length_app. simpl. lia.
  - intros x1 x2 E Hx2 _.
    rewrite rmatch_alt.
    match goal with
    | |- match ?X with _ => _ end = _ => destruct X as [r|] eqn:Hfirst
    end.
    + exfalso. apply comma_tail_inv in Hfirst.
      destruct Hfirst as (ws & Ews & Hws & _).
      exact (no_early_comma v0 x1 tl Hc Hcomma Hsp3 E Hx2 Ews Hws).
    + rewrite rmatch_eol. destruct x2; [contradiction | reflexivity].
  - rewrite consumed_app, rmatch_alt.
    destruct Htl as [-> | (ws & -> & Hws)].
    + reflexivity.
    + now rewrite comma_tail_here.
Qed.

(** [exec] on a well-formed key-value line captures the key and the
    value with the blanks that follow it. *)
Lemma exec_key_value_line (line k v : str) :
  key_value_line line k v ->
  exists m sp3, exec keyValuePattern line = Some m
                /\ groups m = [(2, v ++ sp3); (1, k)]
                /\ passes CSpace sp3.
Proof.
  intros (pre & sp1 & sp2 & sp3 & tl & v0 & c & -> & Hpre & Hne & Hk & Hsp1
          & Hsp2 & Hsp3 & Hv & Hhead & -> & Hc & Hcomma & Htl).
  unfold exec. unfold keyValuePattern at 1.
  rewrite exec_skip_unquoted by assumption. fold keyValuePattern.
  erewrite exec_from_here by (apply keyValuePattern_here; eassumption).
  eexists. exists sp3. repeat split. assumption.
Qed.

(** ** Trimming *)

Lemma trim_start_blocked (s : str) : blocked CSpace s -> trim_start s = s.
Proof. destruct s as [|c s]; simpl; [reflexivity|]. now intros ->. Qed.

Lemma trim_start_spaces (x s : str) :
  passes CSpace x -> trim_start (x ++ s) = trim_start s.
Proof.
  induction 1 as [|c x Hc _ IH]; [reflexivity|].
  simpl in Hc |- *. now rewrite Hc.
Qed.

Lemma trim_value (v0 sp3 : str) (c : char) :
  blocked CSpace (v0 ++ [c]) -> is_space c = false -> passes CSpace sp3 ->
  trim ((v0 ++ [c]) ++ sp3) = v0 ++ [c].
Proof.
  intros Hhead Hc Hsp3. unfold trim.
  rewrite (trim_start_blocked ((v0 ++ [c]) ++ sp3)).
  - rewrite rev_app_distr, trim_start_spaces by now apply Forall_rev.
    rewrite rev_app_distr. simpl. rewrite Hc.
    change (c :: rev v0) with (rev [c] ++ rev v0).
    now rewrite <- rev_app_distr, rev_involutive.
  - destruct v0; simpl in *; assumption.
Qed.

(** ** The trailing comma *)

Lemma trailingComma_here (s : str) :
  match_here Legacy.trailingComma s
  = if str_eqb s [comma] then Some ([], []) else None.
Proof.
  unfold match_here, Legacy.trailingComma.
  destruct s as [|c [|c2 s]]; simpl; try reflexivity;
    destruct (N.eqb c comma); reflexivity.
Qed.

Lemma exec_trailingComma_none (s : str) :
  forall acc, (forall x, s <> x ++ [comma]) ->
              exec_from Legacy.trailingComma acc s = None.
Proof.
  induction s as [|c s IH]; intros acc H; [reflexivity|].
  cbn [exec_from]. rewrite trailingComma_here.
  destruct (str_eqb (c :: s) [comma]) eqn:E.
  - exfalso. destruct s as [|c2 s]; simpl in E.
    + rewrite andb_true_r in E. apply N.eqb_eq in E. subst c.
      now apply (H []).
    + now rewrite andb_false_r in E.
  - apply IH. intros x ->. now apply (H (c :: x)).
Qed.

Lemma exec_trailingComma_some (x : str) :
  forall acc,
    exec_from Legacy.trailingComma acc (x ++ [comma])
    = Some (mkMatch (rev acc ++ x) [comma] [] []).
Proof.
  induction x as [|c x IH]; intro acc.
  - simpl. now rewrite app_nil_r.
  - change ((c :: x) ++ [comma]) with (c :: (x ++ [comma])).
    cbn [exec_from]. rewrite trailingComma_here.
    replace (str_eqb (c :: x ++ [comma]) [comma]) with false.
    + rewrite IH. simpl. now rewrite <- app_assoc.
    + simpl. destruct x; simpl; now rewrite andb_false_r.
Qed.

(** [value.replace(/,$/, '')] removes one trailing comma. *)
Lemma replace_trailingComma (v : str) :
  replace_regex Legacy.trailingComma [] v = stripTrailingComma v.
Proof.
  unfold replace_regex, stripTrailingComma, exec.
  destruct (rev v) as [|c r] eqn:E.
  - apply (f_equal (@rev _)) in E. rewrite rev_involutive in E. now subst v.
  - apply (f_equal (@rev _)) in E. rewrite rev_involutive in E. simpl in E.
    subst v. destruct (N.eqb c comma) eqn:Hc.
    + apply N.eqb_eq in Hc. subst c.
      rewrite exec_trailingComma_some. simpl. now rewrite app_nil_r.
    + rewrite exec_trailingComma_none; [reflexivity|].
      intros x Ex. apply app_inj_tail in Ex. destruct Ex as [_ ->].
      now rewrite N.eqb_refl in Hc.
Qed.

Lemma stripTrailingComma_id (v0 : str) (c : char) :
  c <> comma -> stripTrailingComma (v0 ++ [c]) = v0 ++ [c].
Proof.
  intro H. unfold stripTrailingComma. rewrite rev_app_distr. simpl.
  apply N.eqb_neq in H. now rewrite H.
Qed.

End ValueFacts.


(* ================================================================== *)
(** * The Property Resolver *)
(* ================================================================== *)

Module ResolverFacts.
Import JS Json Model Spec JSFacts PatternFacts LineFacts ValueFacts.

Lemma keyOnlyPattern_inv (s rest : str) (caps : captures) :
  match_here keyOnlyPattern s = Some (rest, caps) ->
  exists k, s = quoted k ++ rest /\ k <> [] /\ ~ In dq k /\ caps = [(1, k)].
Proof.
  unfold match_here, keyOnlyPattern. intro H.
  rewrite rmatch_seq in H.
  apply rmatch_atom_inv in H. destruct H as (c & s1 & -> & Hc & H).
  apply test_char in Hc. subst c.
  rewrite rmatch_seq, rmatch_group, rmatch_greedy in H.
  apply rep_greedy_inv in H. destruct H as (k & s2 & -> & Hk1 & Hk & H).
  rewrite consumed_app in H.
  apply rmatch_atom_inv in H. destruct H as (c & s3 & -> & Hc & H).
  apply test_char in Hc. subst c. injection H as <- <-.
  exists k. repeat split.
  - unfold quoted. simpl. now rewrite <- app_assoc.
  - now apply length_pos_nonnil.
  - now apply passes_not_char.
Qed.

(** The key read from a line is never the empty string. *)
Lemma fromLine_key_nonempty (line k : str) (v : option str) :
  Legacy.fromLine line = (Some k, v) -> k <> [].
Proof.
  unfold Legacy.fromLine.
  destruct (exec keyValuePattern line) as [m|] eqn:Hkv.
  - apply exec_keyValuePattern_groups in Hkv.
    destruct Hkv as (p & k' & v' & (sp1 & sp2 & tl & _ & Hne & _) & _ & ->).
    simpl. now intros [= <- _].
  - destruct (exec keyOnlyPattern line) as [m|] eqn:Hk; [|discriminate].
    apply exec_from_inv in Hk. destruct Hk as (p & s' & _ & Hm & _).
    apply keyOnlyPattern_inv in Hm. destruct Hm as (k' & _ & Hne & _ & ->).
    simpl. now intros [= <- _].
Qed.

Section Legacy.
Variable JSON_parse : str -> option json.
Variable JSON_stringify : json -> str.

(** In the older variant the answer is decided by the line alone as
    soon as the line yields a key: the document is not consulted. *)
Lemma Legacy_line_decides (document : str) (n : nat) (line k : str)
      (v : option str) :
  lineAt document n = Some line ->
  Legacy.fromLine line = (Some k, v) ->
  Legacy.getPropertyAtPosition JSON_parse JSON_stringify document n
  = Some (mkProperty k (Legacy.value_or_unknown v)).
Proof.
  intros Hline Hfrom. unfold Legacy.getPropertyAtPosition.
  rewrite Hline, Hfrom.
  pose proof (@fromLine_key_nonempty _ _ _ Hfrom) as Hne.
  destruct k; [contradiction | reflexivity].
Qed.
End Legacy.

Lemma fromLine_key_value (line : str) (m : MatchResult) :
  exec keyValuePattern line = Some m ->
  Legacy.fromLine line
  = (Some (group 1 (groups m)),
     Some (stripTrailingComma (trim (group 2 (groups m))))).
Proof.
  intro H. unfold Legacy.fromLine. now rewrite H, replace_trailingComma.
Qed.

Lemma fromLine_key_only (line : str) (m : MatchResult) :
  exec keyValuePattern line = None ->
  exec keyOnlyPattern line = Some m ->
  Legacy.fromLine line = (Some (group 1 (groups m)), Some (lit "unknown")).
Proof. intros H1 H2. unfold Legacy.fromLine. now rewrite H1, H2. Qed.

End ResolverFacts.

Module TokenFacts.
Import JS Model Spec JSFacts PatternFacts LineFacts ValueFacts ResolverFacts.

(** The leftmost search, with what it passed over. *)
Lemma exec_from_inv_first (r : regex) (s : str) :
  forall (acc : str) (m : MatchResult),
    exec_from r acc s = Some m ->
    exists p s',
      s = p ++ s' /\ match_here r s' = Some (after m, groups m)
      /\ (forall p1 p2, p = p1 ++ p2 -> p2 <> [] ->
                        match_here r (p2 ++ s') = None).
Proof.
  induction s as [|c s IH]; intros acc m H; simpl in H.
  - destruct (match_here r []) as [[rest caps]|] eqn:E; [|discriminate].
    injection H as <-. exists [], []. repeat split; auto.
    intros p1 p2 E2 Hne. now destruct p1, p2.
  - destruct (match_here r (c :: s)) as [[rest caps]|] eqn:E.
    + injection H as <-. exists [], (c :: s). repeat split; auto.
      intros p1 p2 E2 Hne. now destruct p1, p2.
    + destruct (IH _ _ H) as (p & s' & -> & Hm & Hfail).
      exists (c :: p), s'. repeat split; auto.
      intros [|c1 p1] p2 E2 Hne.
      * simpl in E2. subst p2. exact E.
      * injection E2 as _ ->. exact (Hfail p1 p2 eq_refl Hne).
Qed.

(** A match somewhere is found by the search. *)
Lemma exec_from_complete (r : regex) (p : str) :
  forall (acc s' : str),
    match_here r s' <> None -> exec_from r acc (p ++ s') <> None.
Proof.
  induction p as [|c p IH]; intros acc s' H.
  - simpl. destruct s' as [|c s']; simpl;
      destruct (match_here r _) as [[rest caps]|]; congruence.
  - simpl. destruct (match_here r (c :: p ++ s')) as [[rest caps]|];
      [discriminate | now apply IH].
Qed.

(** Where the key-only pattern finds nothing, the text read so far is a
    run without quotes followed by quotes that open nothing. *)
Lemma unopened_prefix (p t : str) :
  (forall p1 p2, p = p1 ++ p2 -> p2 <> [] ->
                 match_here keyOnlyPattern (p2 ++ dq :: t) = None) ->
  exists u n, p = u ++ repeat dq n /\ ~ In dq u.
Proof.
  induction p as [|c p IH]; intro Hfail.
  - exists [], 0. split; [reflexivity | intros []].
  - destruct IH as (u & n & -> & Hu).
    { intros p1 p2 E Hne. apply (Hfail (c :: p1) p2); [now rewrite E | assumption]. }
    destruct (N.eqb_spec c dq) as [-> | Hc].
    + destruct u as [|x u].
      * exists [], (S n). split; [reflexivity | intros []].
      * exfalso.
        assert (Hpost : exists post, repeat dq n ++ dq :: t = dq :: post)
          by (destruct n; simpl; eauto).
        destruct Hpost as [post Hpost].
        assert (E : match_here keyOnlyPattern
                      ((dq :: (x :: u) ++ repeat dq n) ++ dq :: t) = None)
          by (apply (Hfail [] _ eq_refl); discriminate).
        replace ((dq :: (x :: u) ++ repeat dq n) ++ dq :: t)
          with (quoted (x :: u) ++ post) in E.
        -- rewrite keyOnlyPattern_here in E; [discriminate | discriminate | exact Hu].
        -- unfold quoted. simpl. rewrite <- !app_assoc. simpl.
           now rewrite Hpost.
    + exists (c :: u), n. split; [reflexivity|].
      intros [E | Hin]; [now apply Hc | now apply Hu].
Qed.

(** Whatever the key-only pattern captures is the first quoted token of
    the line. *)
Lemma keyOnlyPattern_first_token (line : str) (m : MatchResult) :
  exec keyOnlyPattern line = Some m ->
  first_quoted_token line (group 1 (groups m)).
Proof.
  intro H. apply exec_from_inv_first in H.
  destruct H as (p & s' & -> & Hm & Hfail).
  apply keyOnlyPattern_inv in Hm.
  destruct Hm as (k & -> & Hne & Hk & ->).
  destruct (@unopened_prefix p (k ++ [dq] ++ after m)) as (u & n & -> & Hu).
  { intros p1 p2 E Hne2. specialize (Hfail p1 p2 E Hne2).
    unfold quoted in Hfail. simpl in Hfail. rewrite <- app_assoc in Hfail.
    exact Hfail. }
  change (group 1 [(1, k)]) with k.
  exists u, n, (after m). rewrite <- app_assoc. repeat split; assumption.
Qed.

(** A line that holds a quoted token has a first one. *)
Lemma first_token_exists (line : str) :
  contains_quoted_token line -> exists k, first_quoted_token line k.
Proof.
  intros (pre & k & post & -> & Hne & Hk).
  destruct (exec keyOnlyPattern (pre ++ quoted k ++ post)) as [m|] eqn:E.
  - exists (group 1 (groups m)). now apply keyOnlyPattern_first_token.
  - exfalso. revert E. apply exec_from_complete.
    now rewrite keyOnlyPattern_here.
Qed.

End TokenFacts.

Module ResolverClaims.
Import JS Json Model Spec JSFacts PatternFacts LineFacts ValueFacts ResolverFacts
       TokenFacts.

(** C4 (as amended).  On a line that matches the key-value pattern the
    resolver answers with the captured key.  The value is the trimmed
    fragment in [src/src/extension.ts]; in the older variant it is the
    trimmed fragment with one trailing comma removed, or ["unknown"] when
    nothing is left.  On a well-formed line (indentation, quoted key,
    colon, value, optional comma) both variants answer with the key and
    the value, whether or not the document is valid JSON. *)
Theorem key_value_line_resolved
        (JSON_parse : str -> option json) (JSON_stringify : json -> str)
        (document : str) (n : nat) (line : str) :
  lineAt document n = Some line ->
  (forall m, exec keyValuePattern line = Some m ->
     Extension.getPropertyAtPosition document n
     = Some (mkProperty (group 1 (groups m)) (trim (group 2 (groups m))))
     /\ Legacy.getPropertyAtPosition JSON_parse JSON_stringify document n
        = Some (mkProperty (group 1 (groups m))
                  (or_else (stripTrailingComma (trim (group 2 (groups m))))
                           (lit "unknown"))))
  /\ (forall k v, key_value_line line k v ->
        Extension.getPropertyAtPosition document n = Some (mkProperty k v)
        /\ Legacy.getPropertyAtPosition JSON_parse JSON_stringify document n
           = Some (mkProperty k v)).
Proof.
  intro Hline.
  assert (Hgen : forall m, exec keyValuePattern line = Some m ->
     Extension.getPropertyAtPosition document n
     = Some (mkProperty (group 1 (groups m)) (trim (group 2 (groups m))))
     /\ Legacy.getPropertyAtPosition JSON_parse JSON_stringify document n
        = Some (mkProperty (group 1 (groups m))
                  (or_else (stripTrailingComma (trim (group 2 (groups m))))
                           (lit "unknown")))).
  { intros m Hm. split.
    - unfold Extension.getPropertyAtPosition. now rewrite Hline, Hm.
    - now rewrite (@Legacy_line_decides JSON_parse JSON_stringify _ _ _ _ _
                     Hline (@fromLine_key_value _ _ Hm)). }
  split; [exact Hgen|].
  intros k v Hkv.
  destruct (@exec_key_value_line _ _ _ Hkv) as (m & sp3 & Hm & Hg & Hsp3).
  destruct (Hgen m Hm) as [HE HL]. rewrite HE, HL, Hg. simpl.
  destruct Hkv as (pre & sp1 & sp2 & sp3' & tl & v0 & c & _ & _ & _ & _ & _
                   & _ & _ & _ & Hhead & -> & Hc & Hcomma & _).
  rewrite trim_value, stripTrailingComma_id by assumption.
  split; [reflexivity|].
  destruct v0; reflexivity.
Qed.

(** C3 (as amended).  On a line that holds a quoted token but does not
    match the key-value pattern, the resolver answers with the first
    quoted token of the line as the key and a fixed value string:
    ["unknown"] in the older variant, ["undefined"] in
    [src/src/extension.ts]. *)
Theorem key_only_line_sentinel
        (JSON_parse : str -> option json) (JSON_stringify : json -> str)
        (document : str) (n : nat) (line : str) :
  lineAt document n = Some line ->
  contains_quoted_token line ->
  exec keyValuePattern line = None ->
  (exists k, first_quoted_token line k)
  /\ (forall k, first_quoted_token line k ->
        Legacy.getPropertyAtPosition JSON_parse JSON_stringify document n
        = Some (mkProperty k (lit "unknown"))
        /\ Extension.getPropertyAtPosition document n
           = Some (mkProperty k (lit "undefined"))).
Proof.
  intros Hline Htoken Hkv.
  split; [now apply first_token_exists|].
  intros k (u & q & post & -> & Hu & Hne & Hk).
  destruct (@exec_keyOnlyPattern_first _ _ post q Hu Hne Hk) as (m & Hm & Hg).
  split.
  - rewrite (@Legacy_line_decides JSON_parse JSON_stringify _ _ _ _ _
                 Hline (@fromLine_key_only _ _ Hkv Hm)).
    now rewrite Hg.
  - unfold Extension.getPropertyAtPosition. now rewrite Hline, Hkv, Hm, Hg.
Qed.

End ResolverClaims.


Module ResolverExamples.
Import Inputs JS Json Model Spec JSFacts PatternFacts LineFacts ValueFacts
       ResolverFacts ResolverClaims.

Lemma not_In_by_eval (c : char) (x : str) :
  existsb (N.eqb c) x = false -> ~ In c x.
Proof.
  intros H Hin.
  assert (E : existsb (N.eqb c) x = true)
    by (apply existsb_exists; exists c; split; [assumption | apply N.eqb_refl]).
  congruence.
Defined.

Lemma passes_by_eval (cc : cclass) (x : str) :
  forallb (cc_test cc) x = true -> passes cc x.
Proof. intro H. apply Forall_forall. now apply forallb_forall. Defined.


Lemma tabSize_line_shape :
  key_value_line tabSize_line (lit "editor.tabSize") (lit "4").
Proof.
  exists (lit "  "), [], (lit " "), [], [comma], [], 52%N.
  repeat split;
    try (apply not_In_by_eval; reflexivity);
    try (apply passes_by_eval; reflexivity);
    try discriminate.
  right. exists []. split; [reflexivity | constructor].
Defined.

(** Witness of [key_value_line_resolved]: the line [  "editor.tabSize": 4,]
    yields the key [editor.tabSize] and the value [4] in both variants. *)
Lemma key_value_line_resolved_witness :
  Extension.getPropertyAtPosition tabSize_line 0
  = Some (mkProperty (lit "editor.tabSize") (lit "4"))
  /\ Legacy.getPropertyAtPosition (fun _ => None) (fun _ => []) tabSize_line 0
     = Some (mkProperty (lit "editor.tabSize") (lit "4")).
Proof.
  exact (proj2 (@key_value_line_resolved (fun _ => None) (fun _ => [])
                  tabSize_line 0 tabSize_line eq_refl)
               _ _ tabSize_line_shape).
Defined.


(** Counterexample to C4 as stated.  The line ["a": ,] matches the
    key-value pattern with the fragment [,]; the trimmed fragment without
    its trailing comma is the empty string, yet the older variant answers
    ["unknown"] and [src/src/extension.ts] answers [,] with the comma
    still in place. *)
Lemma key_value_fragment_not_always_stripped :
  (exists m, exec keyValuePattern emptied_line = Some m
             /\ group 1 (groups m) = lit "a"
             /\ stripTrailingComma (trim (group 2 (groups m))) = [])
  /\ Legacy.getPropertyAtPosition (fun _ => None) (fun _ => []) emptied_line 0
     = Some (mkProperty (lit "a") (lit "unknown"))
  /\ Extension.getPropertyAtPosition emptied_line 0
     = Some (mkProperty (lit "a") (lit ",")).
Proof.
  split; [|split]; [|reflexivity|reflexivity].
  eexists. split; [reflexivity|]. split; reflexivity.
Qed.


Lemma program_line_shape : first_quoted_token program_line (lit "program").
Proof.
  exists [], 0, []. repeat split;
    try (apply not_In_by_eval; reflexivity); try discriminate.
Defined.

Lemma program_line_token : contains_quoted_token program_line.
Proof.
  exists [], (lit "program"), []. repeat split;
    try (apply not_In_by_eval; reflexivity); try discriminate.
Defined.

(** Witness of [key_only_line_sentinel] on the line ["program"]. *)
Lemma key_only_line_sentinel_witness :
  Legacy.getPropertyAtPosition (fun _ => None) (fun _ => []) program_line 0
  = Some (mkProperty (lit "program") (lit "unknown"))
  /\ Extension.getPropertyAtPosition program_line 0
     = Some (mkProperty (lit "program") (lit "undefined")).
Proof.
  exact (proj2 (@key_only_line_sentinel (fun _ => None) (fun _ => [])
                  program_line 0 program_line
                  eq_refl program_line_token eq_refl)
               (lit "program") program_line_shape).
Defined.

(** Counterexample to C3 as stated.  On the line ["program"] the
    resolver of [src/src/extension.ts] answers with the value
    ["undefined"], not ["unknown"]. *)
Lemma key_only_sentinel_is_undefined :
  Extension.getPropertyAtPosition program_line 0
  = Some (mkProperty (lit "program") (lit "undefined"))
  /\ Extension.getPropertyAtPosition program_line 0
     <> Some (mkProperty (lit "program") (lit "unknown")).
Proof. split; [reflexivity | discriminate]. Qed.

End ResolverExamples.


Module EnrichmentExample.
Import Inputs JS Json Model Spec ResolverFacts.


(** C1.  The code at the failing input.  With the cursor on line 8 of
    [launch_text] (the [type] of the second configuration) the older
    variant answers with the text of the line, ["node"], whatever
    [JSON.parse] returns: the early return on a key found on the line
    comes before the document is parsed.  The block written for the
    parsed document, [structuralEnrichment], would have answered with the
    [type] of the first configuration, ["python"].  On line 2 the answer
    is the bracket that opens the array, where that block would have
    answered with the serialized top-level value.  [src/src/extension.ts]
    has no such block and answers from the line as well. *)
Theorem enrichment_never_reached
        (JSON_parse : str -> option json) (JSON_stringify : json -> str) :
  Legacy.getPropertyAtPosition JSON_parse JSON_stringify launch_text 8
  = Some (mkProperty (lit "type") (quoted (lit "node")))
  /\ Legacy.structuralEnrichment JSON_stringify launch_json (lit "type")
       (Some (quoted (lit "node")))
     = Some (mkProperty (lit "type") (quoted (lit "python")))
  /\ Legacy.getPropertyAtPosition JSON_parse JSON_stringify launch_text 2
     = Some (mkProperty (lit "configurations") (lit "["))
  /\ Legacy.structuralEnrichment JSON_stringify launch_json
       (lit "configurations") (Some (lit "["))
     = Some (mkProperty (lit "configurations")
               (JSON_stringify launch_configurations))
  /\ Extension.getPropertyAtPosition launch_text 8
     = Some (mkProperty (lit "type") (quoted (lit "node"))).
Proof. repeat apply conj; reflexivity. Qed.

End EnrichmentExample.


(* ================================================================== *)
(** * The Documentation Catalog *)
(* ================================================================== *)

Module CatalogFacts.
Import JS Json Model Spec.

Lemma str_eqb_eq (a b : str) : str_eqb a b = true <-> a = b.
Proof.
  revert b. induction a as [|x a IH]; intros [|y b]; simpl;
    try (split; [discriminate | discriminate]); [tauto|].
  rewrite andb_true_iff, N.eqb_eq, IH. split.
  - now intros [-> ->].
  - now intros [= -> ->].
Qed.

Lemma str_eqb_refl (a : str) : str_eqb a a = true.
Proof. now apply str_eqb_eq. Qed.

Lemma array_includes_In (x : str) (l : list str) :
  array_includes x l = true <-> In x l.
Proof.
  unfold array_includes. rewrite existsb_exists. split.
  - intros (y & Hy & E). apply str_eqb_eq in E. now subst.
  - intro H. exists x. split; [assumption | apply str_eqb_refl].
Qed.

Section Lookup.
Variable configDocs : list (str * DocEntry).

(** A name bound in the table is answered with its entry. *)
Lemma lookup_present (key : str) (e : DocEntry) :
  lookup key configDocs = Some e ->
  getConfigDocumentation configDocs key = Doc e.
Proof. intro H. unfold getConfigDocumentation. now rewrite H. Qed.

(** The entry found is one the table holds under exactly that name. *)
Lemma lookup_exact (key : str) (e : DocEntry) :
  lookup key configDocs = Some e -> In (key, e) configDocs.
Proof.
  induction configDocs as [|[k' e'] rest IH]; simpl; [discriminate|].
  destruct (str_eqb key k') eqn:E.
  - apply str_eqb_eq in E. subst k'. intros [= ->]. now left.
  - intro H. right. now apply IH.
Qed.

(** A name bound neither in the table nor in [Object.prototype] is
    answered with the sentinel. *)
Lemma lookup_absent (key : str) :
  lookup key configDocs = None ->
  ~ In key Object_prototype_names ->
  getConfigDocumentation configDocs key = Doc sentinel.
Proof.
  intros H Hin. unfold getConfigDocumentation. rewrite H.
  destruct (array_includes key Object_prototype_names) eqn:E; [|reflexivity].
  apply array_includes_In in E. contradiction.
Qed.

(** A name of [Object.prototype] that the table does not bind is answered
    with the inherited member. *)
Lemma lookup_inherited (key : str) :
  lookup key configDocs = None ->
  In key Object_prototype_names ->
  getConfigDocumentation configDocs key = Inherited key.
Proof.
  intros H Hin. unfold getConfigDocumentation. rewrite H.
  apply array_includes_In in Hin. now rewrite Hin.
Qed.
End Lookup.

(** C5.  The code at the failing input.  The name [constructor] is not in
    the table, and the lookup does not answer with the sentinel entry: the
    bracket lookup finds the member inherited from [Object.prototype],
    which is truthy, so the [||] fallback is not taken.  Names in the
    table, and absent names that [Object.prototype] does not define,
    behave as the claim says ([lookup_present], [lookup_absent]). *)
Theorem catalog_lookup_inherited_name :
  lookup (lit "constructor") Extension.configDocs_excerpt = None
  /\ getConfigDocumentation Extension.configDocs_excerpt (lit "constructor")
     = Inherited (lit "constructor")
  /\ getConfigDocumentation Extension.configDocs_excerpt (lit "constructor")
     <> Doc sentinel
  /\ getConfigDocumentation Extension.configDocs_excerpt (lit "editor.tabSize")
     = Doc (mkDoc (lit "The number of spaces a tab is equal to. This setting is overridden based on the file contents when editor.detectIndentation is true.")
                  (lit "number") (Some (lit "4")) None None)
  /\ getConfigDocumentation Extension.configDocs_excerpt (lit "editor.TabSize")
     = Doc sentinel
  /\ type sentinel = lit "unknown".
Proof. repeat apply conj; try reflexivity. discriminate. Qed.

End CatalogFacts.

(* ================================================================== *)
(** * The configuration-file check *)
(* ================================================================== *)

Module ConfigFileFacts.
Import JS Json Model Spec CatalogFacts.

Lemma isConfigFile_true (filePath : str) :
  isConfigFile filePath = true
  <-> includes (lit ".vscode") filePath = true
      /\ In (basename filePath) configFileNames.
Proof.
  unfold isConfigFile. now rewrite andb_true_iff, array_includes_In.
Qed.

Lemma starts_with_app (p s : str) : starts_with p (p ++ s) = true.
Proof.
  induction p as [|c p IH]; simpl; [reflexivity|].
  now rewrite N.eqb_refl.
Qed.

Lemma includes_unfold (p s : str) :
  includes p s
  = starts_with p s || match s with [] => false | _ :: s' => includes p s' end.
Proof. destruct s; reflexivity. Qed.

Lemma includes_app (p a b : str) : includes p (a ++ p ++ b) = true.
Proof.
  induction a as [|c a IH].
  - simpl. now rewrite includes_unfold, starts_with_app.
  - simpl. rewrite IH. apply orb_true_r.
Qed.

Lemma components_nonempty (path cur : str) : components cur path <> [].
Proof.
  revert cur. induction path as [|c path IH]; intro cur; simpl; [discriminate|].
  destruct (N.eqb c slash); [discriminate | apply IH].
Qed.

(** A directory the path goes through is followed by a separator in the
    text of the path. *)
Lemma components_in (path : str) :
  forall cur d,
    In d (removelast (components cur path)) ->
    exists a b, rev cur ++ path = a ++ d ++ slash :: b.
Proof.
  induction path as [|c path IH]; intros cur d Hin; [contradiction|].
  simpl in Hin. destruct (N.eqb c slash) eqn:Hc.
  - apply N.eqb_eq in Hc. subst c.
    destruct (components [] path) as [|y l] eqn:E;
      [now apply components_nonempty in E|].
    rewrite <- E in Hin.
    change (removelast (rev cur :: components [] path))
      with (match components [] path with
            | [] => [] | _ :: _ => rev cur :: removelast (components [] path)
            end) in Hin.
    rewrite E in Hin. rewrite <- E in Hin.
    destruct Hin as [<- | Hin].
    + exists [], path. reflexivity.
    + destruct (IH [] d Hin) as (a & b & Eab). simpl in Eab.
      exists (rev cur ++ slash :: a), b. rewrite Eab.
      now rewrite <- app_assoc.
  - destruct (IH (c :: cur) d Hin) as (a & b & Eab).
    exists a, b. rewrite <- Eab. simpl. now rewrite <- app_assoc.
Qed.

(** Every file that resides inside a [.vscode] directory and bears one of
    the three names is accepted by [isConfigFile]: the check only errs by
    accepting more. *)
Lemma isConfigFile_complete (filePath : str) :
  residesInVscodeDir filePath = true ->
  In (basename filePath) configFileNames ->
  isConfigFile filePath = true.
Proof.
  intros Hres Hname. apply isConfigFile_true. split; [|assumption].
  unfold residesInVscodeDir in Hres. apply existsb_exists in Hres.
  destruct Hres as (d & Hin & E). apply str_eqb_eq in E. subst d.
  apply components_in in Hin. destruct Hin as (a & b & Eab).
  change (rev [] ++ filePath) with filePath in Eab. rewrite Eab.
  apply (includes_app (lit ".vscode") a (slash :: b)).
Qed.

(** C9.  The code at the failing input.  The machine settings of a
    remote server, under [.vscode-server], are accepted, although the file
    does not reside in a directory named [.vscode]: [isInVscodeDir] is a
    substring test on the whole path.  So is a file whose own directory
    merely has [.vscode] in the middle of its name.  A file in [.vscode]
    is accepted when it bears one of the three names. *)
Theorem isConfigFile_accepts_lookalike_directory :
  isConfigFile (lit "/home/user/.vscode-server/data/Machine/settings.json")
  = true
  /\ residesInVscodeDir
       (lit "/home/user/.vscode-server/data/Machine/settings.json") = false
  /\ isConfigFile (lit "/work/notes.vscode.old/launch.json") = true
  /\ residesInVscodeDir (lit "/work/notes.vscode.old/launch.json") = false
  /\ isConfigFile (lit "/work/project/.vscode/settings.json") = true
  /\ residesInVscodeDir (lit "/work/project/.vscode/settings.json") = true
  /\ isConfigFile (lit "/work/project/.vscode/tasks.json") = false.
Proof. repeat apply conj; reflexivity. Qed.

End ConfigFileFacts.


(* ================================================================== *)
(** * The Project Type Analyzer *)
(* ================================================================== *)

Module AnalyzerFacts.
Import JS Model Spec Extension.

Lemma Qgt_bool_true (a b : Q) : Qgt_bool a b = true <-> (b < a)%Q.
Proof.
  unfold Qgt_bool. rewrite negb_true_iff. split.
  - intro H. apply Qnot_le_lt. intro Hle.
    apply Qle_bool_iff in Hle. congruence.
  - intro H. destruct (Qle_bool a b) eqn:E; [|reflexivity].
    apply Qle_bool_iff in E. exfalso. exact (Qlt_not_le _ _ H E).
Qed.

Lemma Qgt_bool_false (a b : Q) : Qgt_bool a b = false <-> (a <= b)%Q.
Proof.
  unfold Qgt_bool. rewrite negb_false_iff. apply Qle_bool_iff.
Qed.


Section Counting.
Variable fs : FileSystem.
Variable path_join : str -> str -> str.
Variable RegExp : str -> option regex.

Lemma checkFiles_bound (ws : str) (fl : list str) :
  checkFiles fs path_join ws fl <= length fl.
Proof. unfold checkFiles. apply filter_length_le. Qed.

(** Each pattern adds at most one to the count. *)
Lemma checkPatterns_bound (entries pats : list str) :
  forall acc,
    acc <= checkPatterns RegExp entries pats acc
    /\ checkPatterns RegExp entries pats acc <= acc + length pats.
Proof.
  induction pats as [|p pats IH]; intro acc; simpl; [lia|].
  destruct (ends_with (lit "/") p).
  - destruct (existsb _ entries);
      [destruct (IH (S acc)) | destruct (IH acc)]; lia.
  - destruct (includes (lit "*") p).
    + destruct (RegExp _) as [re|]; [|lia].
      destruct (existsb _ entries);
        [destruct (IH (S acc)) | destruct (IH acc)]; lia.
    + destruct (IH acc); lia.
Qed.

(** On an empty listing no pattern counts. *)
Lemma checkPatterns_nil (pats : list str) :
  forall acc, checkPatterns RegExp [] pats acc = acc.
Proof.
  induction pats as [|p pats IH]; intro acc; simpl; [reflexivity|].
  destruct (ends_with (lit "/") p); [apply IH|].
  destruct (includes (lit "*") p); [|apply IH].
  destruct (RegExp _); [apply IH | reflexivity].
Qed.


(** When every rule can be built, the count is the number of patterns
    matched by at least one entry. *)
Lemma checkPatterns_count (entries pats : list str) :
  patterns_compile RegExp pats ->
  forall acc,
    checkPatterns RegExp entries pats acc
    = acc + length (filter (pattern_matched RegExp entries) pats).
Proof.
  induction 1 as [|p pats Hp _ IH]; intro acc; simpl; [lia|].
  unfold pattern_matched at 1.
  destruct (ends_with (lit "/") p).
  - rewrite IH. destruct (existsb _ entries); simpl; lia.
  - destruct (includes (lit "*") p).
    + destruct (RegExp _) as [re|]; [|now exfalso; apply Hp].
      rewrite IH. destruct (existsb _ entries); simpl; lia.
    + apply IH.
Qed.

Lemma detectedPatterns_bound (ws : str) (pats : list str) :
  detectedPatterns fs RegExp ws pats <= length pats.
Proof.
  unfold detectedPatterns. destruct (readdirSync fs ws); [|lia].
  destruct (checkPatterns_bound l pats 0). lia.
Qed.

(** What [analyzeProject] returns: the loop body applied to each declared
    signature, in the order of the declaration. *)
Lemma analyzeProject_members (ws : str) (r : ProjectType) :
  In r (analyzeProject fs path_join RegExp ws)
  <-> exists type, In type (projectTypes) /\
                   r = analyzeType fs path_join RegExp ws type.
Proof.
  unfold analyzeProject. rewrite in_map_iff.
  split; intros (type & H1 & H2); exists type; auto.
Qed.


Lemma confidence_spec (ws : str) (type : ProjectType) :
  (confidence (analyzeType fs path_join RegExp ws type)
   == if Nat.eqb (length (files type) + length (patterns type)) 0 then 0
      else 100 * number (checkFiles fs path_join ws (files type)
                         + detectedPatterns fs RegExp ws (patterns type))
           / number (length (files type) + length (patterns type)))%Q.
Proof.
  unfold analyzeType. cbn [confidence].
  destruct (length (files type) + length (patterns type)) as [|t];
    [reflexivity|].
  cbn [Nat.ltb Nat.leb Nat.eqb]. unfold Qdiv. ring.
Qed.
End Counting.

End AnalyzerFacts.

Module AnalyzerClaims.
Import JS Model Spec Extension AnalyzerFacts.


(** C8.  Detection is strict at the threshold: a signature whose
    confidence is exactly 30 is not detected, one whose confidence is
    above 30 is. *)
Theorem detection_threshold
        (fs : FileSystem) (path_join : str -> str -> str)
        (RegExp : str -> option regex) (ws : str) (type : ProjectType) :
  let r := analyzeType fs path_join RegExp ws type in
  ((confidence r == 30)%Q -> detected r = false)
  /\ ((30 < confidence r)%Q -> detected r = true).
Proof.
  intro r. split; intro H.
  - apply Qgt_bool_false, Qle_lteq. now right.
  - now apply Qgt_bool_true.
Qed.

(** C7 (as amended).  When the directory cannot be listed, the analyzer
    goes on as on an empty listing: no pattern counts and the confidence of
    a signature comes from its marker files alone; when in addition no
    marker file exists under the path, as for a directory that does not
    exist, every declared signature comes back with confidence 0 and not
    detected. *)
Theorem unlistable_directory
        (fs : FileSystem) (path_join : str -> str -> str)
        (RegExp : str -> option regex) (ws : str) :
  readdirSync fs ws = None ->
  (forall type,
      detectedPatterns fs RegExp ws (patterns type) = 0
      /\ detectedPatterns fs RegExp ws (patterns type)
         = checkPatterns RegExp [] (patterns type) 0
      /\ (confidence (analyzeType fs path_join RegExp ws type)
          == if Nat.eqb (length (files type) + length (patterns type)) 0
             then 0
             else 100 * number (checkFiles fs path_join ws (files type))
                  / number (length (files type) + length (patterns type)))%Q)
  /\ ((forall file, existsSync fs (path_join ws file) = false) ->
      Forall2 (fun type r =>
                 name r = name type
                 /\ (confidence r == 0)%Q /\ detected r = false)
              (projectTypes) (analyzeProject fs path_join RegExp ws)).
Proof.
  intro Hdir.
  assert (Hpat : forall pats, detectedPatterns fs RegExp ws pats = 0)
    by (intro pats; unfold detectedPatterns; now rewrite Hdir).
  split.
  - intro type. split; [apply Hpat|].
    split; [now rewrite Hpat, checkPatterns_nil|].
    rewrite confidence_spec, Hpat, Nat.add_0_r. reflexivity.
  - intro Hno.
    assert (Hfiles : forall fl, checkFiles fs path_join ws fl = 0).
    { intro fl. unfold checkFiles. induction fl as [|f fl IH]; [reflexivity|].
      simpl. now rewrite Hno. }
    assert (Hall : forall type,
               name (analyzeType fs path_join RegExp ws type) = name type
               /\ (confidence (analyzeType fs path_join RegExp ws type) == 0)%Q
               /\ detected (analyzeType fs path_join RegExp ws type) = false).
    { intro type.
      assert (H0 : (confidence (analyzeType fs path_join RegExp ws type) == 0)%Q).
      { rewrite confidence_spec, Hpat, Hfiles.
        destruct (Nat.eqb _ 0); [reflexivity|].
        change (number (0 + 0)) with 0%Q. unfold Qdiv. ring. }
      repeat split; [exact H0|].
      apply Qgt_bool_false. rewrite H0. discriminate. }
    unfold analyzeProject, projectTypes. cbn [map].
    repeat constructor; apply Hall.
Qed.

End AnalyzerClaims.


Module AnalyzerExamples.
Import Inputs JS Model Spec Extension AnalyzerFacts AnalyzerClaims.


(** Witness of [unlistable_directory]. *)
Lemma unlistable_directory_witness :
  Forall2 (fun type r =>
             name r = name type /\ (confidence r == 0)%Q /\ detected r = false)
          projectTypes
          (analyzeProject nothing_there posix_join RegExp_fragment
                          (lit "/no/such/dir")).
Proof.
  exact (proj2 (@unlistable_directory nothing_there posix_join RegExp_fragment
                  (lit "/no/such/dir") eq_refl)
               (fun _ => eq_refl)).
Defined.


(** Counterexample to C7 as stated.  The listing of [/w] fails, and the
    Python signature comes back detected with confidence 60: its three
    marker files are found by [existsSync]. *)
Lemma unlistable_directory_with_markers :
  readdirSync search_only (lit "/w") = None
  /\ map (fun r => (name r, detected r))
         (analyzeProject search_only posix_join RegExp_fragment (lit "/w"))
     = [(lit "Node.js", false); (lit "React", false); (lit "Python", true)]
  /\ Forall2 (fun r c => (confidence r == c)%Q)
             (analyzeProject search_only posix_join RegExp_fragment (lit "/w"))
             [0%Q; 0%Q; 60%Q].
Proof.
  split; [reflexivity|]. split; [reflexivity|].
  repeat constructor.
Qed.


(** Witness of [detection_threshold]: three markers of ten score exactly
    30 and are not enough, four of ten score 40 and are. *)
Lemma detection_threshold_witness :
  detected (analyzeType (markers_present 3) posix_join RegExp_fragment
                        (lit "/w") ten_markers) = false
  /\ detected (analyzeType (markers_present 4) posix_join RegExp_fragment
                           (lit "/w") ten_markers) = true.
Proof.
  split.
  - apply (proj1 (@detection_threshold (markers_present 3) posix_join
                    RegExp_fragment (lit "/w") ten_markers)).
    vm_compute. reflexivity.
  - apply (proj2 (@detection_threshold (markers_present 4) posix_join
                    RegExp_fragment (lit "/w") ten_markers)).
    vm_compute. reflexivity.
Defined.

(** X5.  On binary64 numbers the comparison with 30 comes out as on exact
    rationals, for every count up to 64 checks. *)
Lemma detection_agrees_with_binary64 :
  forallb (fun total =>
     forallb (fun matched =>
        Bool.eqb (detected_binary64 matched total)
                 (Qgt_bool (number matched / number total * 100) 30))
       (seq 0 (S total)))
    (seq 1 64) = true.
Proof. vm_compute. reflexivity. Qed.

(** ** The wildcard rule *)



End AnalyzerExamples.


(* ================================================================== *)
(** * The primary signature *)
(* ================================================================== *)

Module PrimaryFacts.
Import Inputs JS Model Spec Extension AnalyzerFacts AnalyzerExamples.


Lemma at_most_weaken (p p' : ProjectType) (l : list ProjectType) :
  (confidence p <= confidence p')%Q ->
  Forall (at_most p) l -> Forall (at_most p') l.
Proof.
  intros H. apply Forall_impl. intros q Hq. unfold at_most in *.
  now apply Qle_trans with (confidence p).
Qed.

Lemma below_at_most (p : ProjectType) (l : list ProjectType) :
  Forall (below p) l -> Forall (at_most p) l.
Proof. apply Forall_impl. intros q Hq. now apply Qlt_le_weak. Qed.

(** The reduction keeps a candidate [x] with everything before it at most
    as confident and everything after it (so far) strictly less so. *)
Lemma fold_moreConfident (xs : list ProjectType) :
  forall pre x post,
    Forall (at_most x) pre -> Forall (below x) post ->
    exists l1 l2,
      pre ++ x :: post ++ xs = l1 ++ fold_left moreConfident xs x :: l2
      /\ Forall (at_most (fold_left moreConfident xs x)) l1
      /\ Forall (below (fold_left moreConfident xs x)) l2.
Proof.
  induction xs as [|y xs IH]; intros pre x post Hpre Hpost.
  - exists pre, post. now rewrite app_nil_r.
  - simpl. unfold moreConfident at 2 4 6.
    destruct (Qgt_bool (confidence x) (confidence y)) eqn:E.
    + apply Qgt_bool_true in E.
      destruct (IH pre x (post ++ [y]) Hpre) as (l1 & l2 & Eq & H1 & H2).
      { apply Forall_app. split; [assumption | now constructor]. }
      exists l1, l2. split; [|now split].
      rewrite <- Eq, <- app_assoc. reflexivity.
    + apply Qgt_bool_false in E.
      destruct (IH (pre ++ x :: post) y []) as (l1 & l2 & Eq & H1 & H2).
      { apply Forall_app. split; [now apply at_most_weaken with x|].
        constructor; [assumption|].
        apply at_most_weaken with x; [assumption | now apply below_at_most]. }
      { constructor. }
      exists l1, l2. split; [|now split].
      rewrite <- Eq, <- app_assoc. reflexivity.
Qed.

End PrimaryFacts.

Module PrimaryClaims.
Import Inputs JS Model Spec Extension AnalyzerFacts AnalyzerExamples PrimaryFacts.

(** C2 (as amended).  The primary signature is a detected signature of
    highest confidence; when several detected signatures share that
    confidence it is the one latest in the declaration order: every
    detected signature before it is at most as confident, every one after
    it is strictly less confident.  Nothing is selected only when nothing
    was detected. *)
Theorem primary_is_last_maximum (analysis : list ProjectType) :
  match primaryType analysis with
  | None => filter detected analysis = []
  | Some p =>
      exists l1 l2,
        filter detected analysis = l1 ++ p :: l2
        /\ Forall (fun q => (confidence q <= confidence p)%Q) l1
        /\ Forall (fun q => (confidence q < confidence p)%Q) l2
  end.
Proof.
  unfold primaryType.
  destruct (filter detected analysis) as [|x xs]; [reflexivity|].
  cbn [length Nat.eqb reduce].
  destruct (@fold_moreConfident xs [] x []) as (l1 & l2 & Eq & H1 & H2);
    try constructor.
  exists l1, l2. repeat split; assumption.
Qed.


(** Counterexample to C2 as stated.  In [tied_workspace] all three
    signatures are detected, React and Python with the same, highest
    confidence 60.  React is declared before Python; the primary signature
    is Python. *)
Lemma primary_is_not_first_maximum :
  let analysis :=
    analyzeProject tied_workspace posix_join RegExp_fragment (lit "/w") in
  map (fun r => (name r, detected r)) analysis
  = [(lit "Node.js", true); (lit "React", true); (lit "Python", true)]
  /\ Forall2 (fun r c => (confidence r == c)%Q) analysis [50%Q; 60%Q; 60%Q]
  /\ option_map name (primaryType analysis) = Some (lit "Python").
Proof.
  split; [reflexivity|]. split; [repeat constructor | reflexivity].
Qed.

End PrimaryClaims.


(* ================================================================== *)
(** * Further properties *)
(* ================================================================== *)

Module Further.
Import JS Json Model Spec Extension Inputs.
Import ResolverFacts ResolverExamples CatalogFacts ConfigFileFacts AnalyzerFacts.

(** X1.  In the older variant the parsed document has no say once the line
    holds a key: two runs that differ only in what [JSON.parse] and
    [JSON.stringify] return give the same answer, the one read from the
    line. *)
Theorem line_answer_ignores_document
        (parse parse' : str -> option json) (stringify stringify' : json -> str)
        (document : str) (n : nat) (line k : str) (v : option str) :
  lineAt document n = Some line ->
  Legacy.fromLine line = (Some k, v) ->
  Legacy.getPropertyAtPosition parse stringify document n
  = Legacy.getPropertyAtPosition parse' stringify' document n
  /\ Legacy.getPropertyAtPosition parse stringify document n
     = Some (mkProperty k (Legacy.value_or_unknown v)).
Proof.
  intros Hline Hfrom.
  now rewrite !(@Legacy_line_decides _ _ _ _ _ _ _ Hline Hfrom).
Qed.

(** Witness of [line_answer_ignores_document]: line 8 of the example,
    once with the document parsed and once with the parse failing. *)
Lemma line_answer_ignores_document_witness :
  Legacy.getPropertyAtPosition (fun _ => Some launch_json) (fun _ => []) launch_text 8
  = Legacy.getPropertyAtPosition (fun _ => None) (fun _ => []) launch_text 8
  /\ Legacy.getPropertyAtPosition (fun _ => Some launch_json) (fun _ => []) launch_text 8
     = Some (mkProperty (lit "type")
               (Legacy.value_or_unknown (Some (quoted (lit "node"))))).
Proof.
  exact (@line_answer_ignores_document
           (fun _ => Some launch_json) (fun _ => None) (fun _ => []) (fun _ => [])
           launch_text 8 _ (lit "type") (Some (quoted (lit "node")))
           eq_refl eq_refl).
Defined.

(** X2.  The catalog lookup on the names it is meant for: a name bound in the
    table is answered with the entry stored under exactly that name, and a
    name bound neither in the table nor in [Object.prototype] with the
    sentinel entry, whose type is ["unknown"]. *)
Theorem catalog_lookup_on_plain_names
        (configDocs : list (str * DocEntry)) (key : str) :
  match lookup key configDocs with
  | Some e =>
      getConfigDocumentation configDocs key = Doc e /\ In (key, e) configDocs
  | None =>
      ~ In key Object_prototype_names ->
      getConfigDocumentation configDocs key = Doc sentinel
      /\ description sentinel
         = lit "No documentation available for this configuration."
      /\ type sentinel = lit "unknown"
  end.
Proof.
  destruct (lookup key configDocs) as [e|] eqn:E.
  - split; [now apply lookup_present | now apply lookup_exact].
  - intro H. split; [now apply lookup_absent | split; reflexivity].
Qed.

(** X3.  [isConfigFile] accepts every file that bears one of the three names
    and resides inside a directory named [.vscode]. *)
Theorem isConfigFile_accepts_vscode_files (filePath : str) :
  residesInVscodeDir filePath = true ->
  In (basename filePath) configFileNames ->
  isConfigFile filePath = true.
Proof. apply isConfigFile_complete. Qed.

(** Witness of [isConfigFile_accepts_vscode_files]. *)
Lemma isConfigFile_accepts_vscode_files_witness :
  isConfigFile (lit "/work/project/.vscode/launch.json") = true.
Proof.
  apply isConfigFile_accepts_vscode_files; [reflexivity|].
  right. left. reflexivity.
Defined.

(** X4.  With a listing and rules that can all be built, the number of
    matched patterns is the number of patterns that some entry satisfies. *)
Theorem matched_patterns_counted_once
        (fs : FileSystem) (RegExp : str -> option regex)
        (ws : str) (entries pats : list str) :
  readdirSync fs ws = Some entries ->
  patterns_compile RegExp pats ->
  detectedPatterns fs RegExp ws pats
  = length (filter (pattern_matched RegExp entries) pats).
Proof.
  intros Hdir Hc. unfold detectedPatterns. rewrite Hdir.
  now rewrite checkPatterns_count.
Qed.

(** Witness of [matched_patterns_counted_once]: the patterns of the
    Python signature on the listing of the example workspace. *)
Lemma matched_patterns_counted_once_witness :
  detectedPatterns tied_workspace RegExp_fragment (lit "/w")
                   [lit "*.py"; lit "__pycache__/"]
  = length (filter (pattern_matched RegExp_fragment
                      [lit "src"; lit "public"; lit "setup.py";
                       lit "__pycache__"; lit "package.json"])
                   [lit "*.py"; lit "__pycache__/"]).
Proof.
  apply matched_patterns_counted_once; [reflexivity|].
  repeat constructor; discriminate.
Defined.

End Further.

(* ================================================================== *)
(** * More on the Property Resolver *)
(* ================================================================== *)

Module ResolverMore.
Import JS Json Model Spec Notions Inputs.
Import JSFacts PatternFacts LineFacts ValueFacts ResolverFacts TokenFacts
       ResolverExamples.

Lemma first_token_contains (line k : str) :
  first_quoted_token line k -> contains_quoted_token line.
Proof.
  intros (u & n & post & -> & _ & Hne & Hk).
  exists (u ++ repeat dq n), k, post. rewrite <- app_assoc. now repeat split.
Qed.

Lemma kv_shape_contains (s k v : str) :
  kv_shape s k v -> exists post, s = quoted k ++ post /\ k <> [] /\ ~ In dq k.
Proof.
  intros (sp1 & sp2 & tl & -> & Hne & Hk & _).
  eexists. split; [|now split]. unfold quoted. simpl.
  rewrite <- app_assoc. reflexivity.
Qed.

(** On a line without a quoted token neither pattern matches. *)
Lemma no_token_no_match (line : str) :
  ~ contains_quoted_token line ->
  exec keyValuePattern line = None /\ exec keyOnlyPattern line = None.
Proof.
  intro H. split.
  - destruct (exec keyValuePattern line) as [m|] eqn:E; [|reflexivity].
    exfalso. apply H. apply exec_keyValuePattern_groups in E.
    destruct E as (p & k & v & Hs & (pre & ->) & _).
    apply kv_shape_contains in Hs. destruct Hs as (post & -> & Hne & Hk).
    now exists pre, k, post.
  - destruct (exec keyOnlyPattern line) as [m|] eqn:E; [|reflexivity].
    exfalso. apply H. apply keyOnlyPattern_first_token in E.
    now apply first_token_contains in E.
Qed.

Lemma token_key_only_match (line : str) :
  contains_quoted_token line -> exec keyOnlyPattern line <> None.
Proof.
  intros (pre & k & post & -> & Hne & Hk).
  apply exec_from_complete. now rewrite keyOnlyPattern_here.
Qed.

(** X6.  The resolver of [src/src/extension.ts] answers [null] exactly
    when the document has no line of that number or the line holds no
    quoted token. *)
Theorem resolver_null_iff (document : str) (n : nat) :
  Extension.getPropertyAtPosition document n = None
  <-> lineAt document n = None
      \/ exists line, lineAt document n = Some line
                      /\ ~ contains_quoted_token line.
Proof.
  unfold Extension.getPropertyAtPosition.
  destruct (lineAt document n) as [line|]; [|split; auto].
  split.
  - intro H. right. exists line. split; [reflexivity|]. intro Htok.
    apply token_key_only_match in Htok.
    destruct (exec keyValuePattern line); [discriminate|].
    destruct (exec keyOnlyPattern line); [discriminate | contradiction].
  - intros [H | (l & [= <-] & Hno)]; [discriminate|].
    destruct (no_token_no_match Hno) as [-> ->]. reflexivity.
Qed.

(** X7.  Whatever the resolver of [src/src/extension.ts] answers, the key
    is a token of the cursor line: it stands there between two quotes, is
    not empty and holds no quote itself. *)
Theorem resolver_key_is_quoted_token (document : str) (n : nat) (p : Property) :
  Extension.getPropertyAtPosition document n = Some p ->
  exists line pre post,
    lineAt document n = Some line
    /\ line = pre ++ quoted (key p) ++ post
    /\ key p <> [] /\ ~ In dq (key p).
Proof.
  unfold Extension.getPropertyAtPosition.
  destruct (lineAt document n) as [line|]; [|discriminate].
  destruct (exec keyValuePattern line) as [m|] eqn:Ekv.
  - intros [= <-]. apply exec_keyValuePattern_groups in Ekv.
    destruct Ekv as (s & k & v & Hs & (pre & ->) & ->).
    apply kv_shape_contains in Hs. destruct Hs as (post & -> & Hne & Hk).
    exists (pre ++ quoted k ++ post), pre, post. now repeat split.
  - destruct (exec keyOnlyPattern line) as [m|] eqn:Ek; [|discriminate].
    intros [= <-]. apply keyOnlyPattern_first_token in Ek.
    destruct Ek as (u & q & post & -> & _ & Hne & Hk).
    exists (u ++ repeat dq q ++ quoted (group 1 (groups m)) ++ post),
           (u ++ repeat dq q), post.
    rewrite <- app_assoc. now repeat split.
Qed.

(** Witness of [resolver_key_is_quoted_token] on the line
    [  "editor.tabSize": 4,]. *)
Lemma resolver_key_is_quoted_token_witness :
  exists line pre post,
    lineAt tabSize_line 0 = Some line
    /\ line = pre ++ quoted (lit "editor.tabSize") ++ post
    /\ lit "editor.tabSize" <> [] /\ ~ In dq (lit "editor.tabSize").
Proof.
  exact (@resolver_key_is_quoted_token tabSize_line 0
           (mkProperty (lit "editor.tabSize") (lit "4")) eq_refl).
Defined.

(** ** Trimming *)

Lemma trim_start_suffix (s : str) :
  exists a, s = a ++ trim_start s /\ passes CSpace a.
Proof.
  induction s as [|c s (a & E & Ha)]; [exists []; split; [reflexivity | constructor]|].
  simpl. destruct (is_space c) eqn:Hc.
  - exists (c :: a). split; [simpl; now rewrite <- E | now constructor].
  - exists []. split; [reflexivity | constructor].
Qed.

Lemma trim_start_is_blocked (s : str) : blocked CSpace (trim_start s).
Proof.
  induction s as [|c s IH]; [exact I|].
  simpl. destruct (is_space c) eqn:Hc; [assumption | exact Hc].
Qed.

Lemma blocked_app (x y : str) : x <> [] -> blocked CSpace (x ++ y) -> blocked CSpace x.
Proof. destruct x; [contradiction | auto]. Qed.

Lemma trim_is_trimmed (s : str) : trimmed (trim s).
Proof.
  unfold trimmed, trim. rewrite rev_involutive.
  split; [|apply trim_start_is_blocked].
  destruct (trim_start_suffix (rev (trim_start s))) as (a & E & _).
  set (t := trim_start (rev (trim_start s))) in *.
  apply (f_equal (@rev _)) in E. rewrite rev_involutive, rev_app_distr in E.
  destruct (rev t) as [|c r] eqn:Et; [exact I|].
  pose proof (trim_start_is_blocked s) as Hb. rewrite E in Hb. exact Hb.
Qed.

(** X8.  The value the resolver of [src/src/extension.ts] answers with
    never begins or ends with a blank. *)
Theorem resolver_value_is_trimmed (document : str) (n : nat) (p : Property) :
  Extension.getPropertyAtPosition document n = Some p -> trimmed (value p).
Proof.
  unfold Extension.getPropertyAtPosition.
  destruct (lineAt document n) as [line|]; [|discriminate].
  destruct (exec keyValuePattern line) as [m|].
  - intros [= <-]. apply trim_is_trimmed.
  - destruct (exec keyOnlyPattern line); [|discriminate].
    intros [= <-]. split; reflexivity.
Qed.

(** The line ["a":   spaced out  ,] *)
Lemma resolver_value_is_trimmed_witness :
  trimmed (lit "spaced out").
Proof.
  exact (@resolver_value_is_trimmed
           (quoted (lit "a") ++ lit ":   spaced out  ,") 0
           (mkProperty (lit "a") (lit "spaced out")) eq_refl).
Defined.

End ResolverMore.

Module FallbackFacts.
Import JS Json Model Spec Notions Inputs.
Import JSFacts PatternFacts LineFacts ValueFacts ResolverFacts TokenFacts
       CatalogFacts ResolverMore.

(** The first property of a parsed object: nothing for the empty object
    and for an object whose first key is the empty string. *)
Lemma firstProperty_object (JSON_stringify : json -> str)
      (props : list (str * json)) :
  Legacy.firstProperty JSON_stringify (JObj props)
  = match props with
    | [] => None
    | ([], _) :: _ => None
    | (k, v) :: _ => Some (mkProperty k (Legacy.valueStr JSON_stringify v))
    end.
Proof.
  destruct props as [|[[|c k] v] rest]; try reflexivity.
  unfold Legacy.firstProperty, keys, get. cbn -[str_eqb].
  now rewrite str_eqb_refl.
Qed.

(** X9.  In the older variant, on a line without a quoted token the
    answer comes from the document alone: [null] when the text without its
    comments does not parse or parses to a falsy value, the first property
    of the parsed value otherwise; for a parsed object that is its first
    member, unless the object is empty or the name of that member is the
    empty string. *)
Theorem legacy_document_fallback
        (JSON_parse : str -> option json) (JSON_stringify : json -> str)
        (document : str) (n : nat) (line : str) :
  lineAt document n = Some line ->
  ~ contains_quoted_token line ->
  Legacy.getPropertyAtPosition JSON_parse JSON_stringify document n
  = match JSON_parse (Legacy.stripComments document) with
    | None => None
    | Some (JObj []) => None
    | Some (JObj (([], _) :: _)) => None
    | Some (JObj ((k, v) :: _)) =>
        Some (mkProperty k (Legacy.valueStr JSON_stringify v))
    | Some j =>
        if truthy j then Legacy.firstProperty JSON_stringify j else None
    end.
Proof.
  intros Hline Hno. unfold Legacy.getPropertyAtPosition, Legacy.fromLine.
  rewrite Hline. destruct (no_token_no_match Hno) as [-> ->].
  cbn [Legacy.truthy_str].
  destruct (JSON_parse (Legacy.stripComments document)) as [j|]; [|reflexivity].
  rewrite andb_false_r.
  destruct j as [| | | | |props]; try reflexivity.
  cbn [truthy]. rewrite firstProperty_object.
  destruct props as [|[[|c k] v] rest]; reflexivity.
Qed.

(** Witness of [legacy_document_fallback]: the cursor on the opening
    brace of the example [launch.json]. *)
Lemma legacy_document_fallback_witness :
  Legacy.getPropertyAtPosition (fun _ => Some launch_json) (fun _ => [])
                               launch_text 0
  = Some (mkProperty (lit "version") (quoted (lit "0.2.0"))).
Proof.
  refine (@legacy_document_fallback (fun _ => Some launch_json) (fun _ => [])
            launch_text 0 (lit "{") eq_refl _).
  intros (pre & k & post & E & Hne & Hk).
  destruct pre as [|c pre]; [discriminate|].
  injection E as _ E. now destruct pre.
Defined.

End FallbackFacts.

(* ================================================================== *)
(** * Comment stripping *)
(* ================================================================== *)

Module ReplaceFacts.
Import JS Spec JSFacts.

(** A match consumes a prefix of the input. *)
Lemma rmatch_rest (A : Type) (r : regex) :
  forall (s : str) (caps : captures) (k : str -> captures -> option A) (res : A),
    rmatch r s caps k = Some res ->
    exists x s' caps', s = x ++ s' /\ k s' caps' = Some res.
Proof.
  induction r as [|cc|g min cc|r1 IH1 r2 IH2|r1 IH1 r2 IH2|n r IH|m];
    intros s caps k res H.
  - now exists [], s, caps.
  - apply rmatch_atom_inv in H. destruct H as (c & s' & -> & _ & H).
    now exists [c], s', caps.
  - destruct g.
    + rewrite rmatch_greedy in H. apply rep_greedy_inv in H.
      destruct H as (x & s' & -> & _ & _ & H). now exists x, s', caps.
    + rewrite rmatch_lazy in H. apply rep_lazy_inv in H.
      destruct H as (x & s' & -> & _ & _ & H). now exists x, s', caps.
  - rewrite rmatch_seq in H. apply IH1 in H.
    destruct H as (x & s1 & caps1 & -> & H). apply IH2 in H.
    destruct H as (y & s2 & caps2 & -> & H).
    exists (x ++ y), s2, caps2. now rewrite <- app_assoc.
  - rewrite rmatch_alt in H.
    destruct (rmatch r1 s caps k) eqn:E; [injection H as ->; now apply IH1 in E|].
    now apply IH2 in H.
  - rewrite rmatch_group in H. apply IH in H.
    destruct H as (x & s' & caps' & -> & H). eauto.
  - rewrite rmatch_eol in H. destruct (at_eol m s); [|discriminate].
    now exists [], s, caps.
Qed.

Lemma match_here_rest (r : regex) (s rest : str) (caps : captures) :
  match_here r s = Some (rest, caps) -> exists x, s = x ++ rest.
Proof.
  unfold match_here. intro H. apply rmatch_rest in H.
  destruct H as (x & s' & caps' & -> & [= <- _]). now exists x.
Qed.

Section ReplaceAll.
Variable r : regex.
Variable repl : str.

(** Fuel beyond the length of the input changes nothing. *)
Lemma replace_all_fuel_enough (fuel1 : nat) :
  forall (fuel2 : nat) (s : str),
    length s < fuel1 -> length s < fuel2 ->
    replace_all_fuel fuel1 r repl s = replace_all_fuel fuel2 r repl s.
Proof.
  induction fuel1 as [|f1 IH]; intros fuel2 s H1 H2; [lia|].
  destruct fuel2 as [|f2]; [lia|].
  cbn [replace_all_fuel].
  destruct (match_here r s) as [[rest caps]|] eqn:E.
  - apply match_here_rest in E. destruct E as [x ->].
    rewrite consumed_app.
    destruct x as [|c x]; cbn [app].
    + destruct rest as [|c rest]; [reflexivity|].
      simpl in H1, H2. rewrite (IH f2); [reflexivity | lia | lia].
    + simpl in H1, H2. rewrite length_app in H1, H2.
      rewrite (IH f2); [reflexivity | lia | lia].
  - destruct s as [|c s]; [reflexivity|].
    simpl in H1, H2. rewrite (IH f2); [reflexivity | lia | lia].
Qed.

Lemma replace_all_fuel_step (fuel : nat) (s : str) :
  replace_all_fuel (S fuel) r repl s
  = match match_here r s with
    | Some (rest, _) =>
        match consumed s rest, s with
        | [], c :: s' => repl ++ c :: replace_all_fuel fuel r repl s'
        | [], [] => repl
        | _ :: _, _ => repl ++ replace_all_fuel fuel r repl rest
        end
    | None =>
        match s with
        | [] => []
        | c :: s' => c :: replace_all_fuel fuel r repl s'
        end
    end.
Proof. reflexivity. Qed.

Lemma replace_all_nil_none :
  match_here r [] = None -> replace_all r repl [] = [].
Proof. intro H. unfold replace_all. simpl. now rewrite H. Qed.

Lemma replace_all_cons_none (c : char) (s : str) :
  match_here r (c :: s) = None ->
  replace_all r repl (c :: s) = c :: replace_all r repl s.
Proof.
  intro H. unfold replace_all.
  change (length (c :: s)) with (S (length s)).
  cbn [replace_all_fuel]. now rewrite H.
Qed.

Lemma replace_all_match (x rest : str) (caps : captures) :
  x <> [] ->
  match_here r (x ++ rest) = Some (rest, caps) ->
  replace_all r repl (x ++ rest) = repl ++ replace_all r repl rest.
Proof.
  intros Hx H. unfold replace_all at 1.
  rewrite replace_all_fuel_step, H, consumed_app.
  destruct x as [|c x]; [contradiction|].
  f_equal. unfold replace_all.
  apply replace_all_fuel_enough; simpl; rewrite ?length_app; lia.
Qed.

(** Where no match starts inside [a], the scan passes over [a]. *)
Lemma replace_all_skip (a : str) :
  forall s,
    (forall a1 a2, a = a1 ++ a2 -> a2 <> [] -> match_here r (a2 ++ s) = None) ->
    replace_all r repl (a ++ s) = a ++ replace_all r repl s.
Proof.
  induction a as [|c a IH]; intros s H; [reflexivity|].
  simpl. rewrite replace_all_cons_none.
  - f_equal. apply IH. intros a1 a2 E Hne.
    apply (H (c :: a1) a2); [now rewrite E | assumption].
  - apply (H [] (c :: a) eq_refl). discriminate.
Qed.
End ReplaceAll.

End ReplaceFacts.

Module CommentFacts.
Import JS Json Model Spec JSFacts ReplaceFacts ConfigFileFacts.

Lemma lineComment_needs_slashes (s : str) :
  starts_with (lit "//") s = false -> match_here Legacy.lineComment s = None.
Proof.
  unfold match_here, Legacy.lineComment, slash.
  destruct s as [|c [|c2 s]]; try reflexivity.
  - simpl. now destruct (N.eqb c 47).
  - intro H. destruct (N.eqb_spec c 47) as [-> | Hc].
    + destruct (N.eqb_spec c2 47) as [-> | Hc2]; [discriminate H|].
      simpl. apply N.eqb_neq in Hc2. now rewrite Hc2.
    + simpl. apply N.eqb_neq in Hc. now rewrite Hc.
Qed.

Lemma blockComment_needs_opening (s : str) :
  starts_with (lit "/*") s = false -> match_here Legacy.blockComment s = None.
Proof.
  unfold match_here, Legacy.blockComment, slash, star.
  destruct s as [|c [|c2 s]]; try reflexivity.
  - simpl. now destruct (N.eqb c 47).
  - intro H. destruct (N.eqb_spec c 47) as [-> | Hc].
    + destruct (N.eqb_spec c2 42) as [-> | Hc2]; [discriminate H|].
      simpl. apply N.eqb_neq in Hc2. now rewrite Hc2.
    + simpl. apply N.eqb_neq in Hc. now rewrite Hc.
Qed.

(** A line comment runs from [//] to the end of its line. *)
Lemma lineComment_here (b c : str) :
  passes CDot b -> blocked CDot c ->
  match_here Legacy.lineComment (lit "//" ++ b ++ c) = Some (c, []).
Proof.
  intros Hb Hc. unfold match_here, Legacy.lineComment.
  change (lit "//" ++ b ++ c) with (slash :: slash :: b ++ c).
  rewrite rmatch_seq, rmatch_atom_cons by reflexivity.
  rewrite rmatch_seq, rmatch_atom_cons by reflexivity.
  rewrite rmatch_seq, rmatch_greedy.
  apply rep_greedy_all; [assumption | lia | assumption |].
  rewrite rmatch_eol.
  destruct c as [|x c]; [reflexivity|].
  simpl in Hc |- *. apply negb_false_iff in Hc. now rewrite Hc.
Qed.

Lemma includes_suffix (p a1 a2 : str) :
  includes p (a1 ++ a2) = false -> includes p a2 = false.
Proof.
  induction a1 as [|c a1 IH]; [auto|].
  simpl. intro H. apply orb_false_iff in H. now apply IH.
Qed.

Lemma includes_head (p s : str) :
  includes p s = false -> starts_with p s = false.
Proof.
  rewrite includes_unfold. intro H. now apply orb_false_iff in H.
Qed.

(** Inside a text that holds no [/x] pair and does not end in a slash, no
    suffix followed by anything begins with [/x]. *)
Lemma no_opening_inside (x : char) (a a1 a2 s : str) :
  includes [slash; x] a = false ->
  (forall a0, a <> a0 ++ [slash]) ->
  a = a1 ++ a2 -> a2 <> [] ->
  starts_with [slash; x] (a2 ++ s) = false.
Proof.
  intros Hinc Hend -> Hne.
  apply includes_suffix, includes_head in Hinc.
  destruct a2 as [|c [|c2 a2]]; [contradiction | | exact Hinc].
  cbn [app starts_with].
  destruct (N.eqb_spec slash c) as [<- | _]; [|reflexivity].
  exfalso. now apply (Hend a1).
Qed.

Lemma no_opening_at_end (x : char) (a a1 a2 : str) :
  includes [slash; x] a = false ->
  a = a1 ++ a2 ->
  starts_with [slash; x] (a2 ++ []) = false.
Proof.
  intros Hinc ->. rewrite app_nil_r.
  now apply includes_suffix, includes_head in Hinc.
Qed.

End CommentFacts.

Module CommentClaims.
Import JS Json Model Spec JSFacts ReplaceFacts ConfigFileFacts CommentFacts
       ResolverExamples.

Lemma not_ending_in_slash (a : str) :
  ends_with (lit "/") a = false -> forall a0, a <> a0 ++ [slash].
Proof.
  intros H a0 ->. unfold ends_with in H. rewrite rev_app_distr in H.
  discriminate H.
Qed.

(** X10.  A text that holds neither [//] nor the opening of a block
    comment comes out of the comment stripping unchanged. *)
Theorem stripComments_without_comments (text : str) :
  includes (lit "//") text = false ->
  includes (lit "/*") text = false ->
  Legacy.stripComments text = text.
Proof.
  intros Hline Hblock. unfold Legacy.stripComments.
  assert (E1 : replace_all Legacy.lineComment [] text = text).
  { rewrite <- (app_nil_r text) at 1. rewrite replace_all_skip.
    - rewrite replace_all_nil_none by reflexivity. apply app_nil_r.
    - intros a1 a2 E _. apply lineComment_needs_slashes.
      exact (@no_opening_at_end slash _ _ _ Hline E). }
  rewrite E1. rewrite <- (app_nil_r text) at 1. rewrite replace_all_skip.
  - rewrite replace_all_nil_none by reflexivity. apply app_nil_r.
  - intros a1 a2 E _. apply blockComment_needs_opening.
    exact (@no_opening_at_end star _ _ _ Hblock E).
Qed.

(** Witness of [stripComments_without_comments]: a member whose value is
    a path. *)
Lemma stripComments_without_comments_witness :
  Legacy.stripComments (quoted (lit "python.pythonPath") ++ lit ": "
                        ++ quoted (lit "/usr/bin/python"))
  = quoted (lit "python.pythonPath") ++ lit ": " ++ quoted (lit "/usr/bin/python").
Proof.
  apply stripComments_without_comments; reflexivity.
Defined.

(** X11.  The stripping of line comments does not look at string
    literals: wherever [//] follows a text [a] that holds no comment
    opening itself, everything from there to the end of the line is removed
    and the stripping goes on with the rest [c] of the document. *)
Theorem stripComments_cuts_at_double_slash (a b c : str) :
  includes (lit "//") a = false ->
  includes (lit "/*") a = false ->
  ends_with (lit "/") a = false ->
  passes CDot b ->
  blocked CDot c ->
  Legacy.stripComments (a ++ lit "//" ++ b ++ c) = a ++ Legacy.stripComments c.
Proof.
  intros Hline Hblock Hend Hb Hc. unfold Legacy.stripComments.
  pose proof (@not_ending_in_slash a Hend) as Hend'.
  rewrite replace_all_skip.
  - rewrite (app_assoc (lit "//") b c).
    rewrite (@replace_all_match _ _ (lit "//" ++ b) c []);
      [ | discriminate | rewrite <- app_assoc; now apply lineComment_here].
    cbn [app]. apply replace_all_skip.
    intros a1 a2 E Hne. apply blockComment_needs_opening.
    exact (@no_opening_inside star _ _ _ _ Hblock Hend' E Hne).
  - intros a1 a2 E Hne. apply lineComment_needs_slashes.
    exact (@no_opening_inside slash _ _ _ _ Hline Hend' E Hne).
Qed.

(** Witness of [stripComments_cuts_at_double_slash]: the value of
    ["url": "http://example.com",] is cut after [http:]. *)
Lemma stripComments_cuts_at_double_slash_witness :
  Legacy.stripComments
    ((quoted (lit "url") ++ lit ": " ++ dq :: lit "http:")
     ++ lit "//" ++ (lit "example.com" ++ dq :: lit ",") ++ [])
  = (quoted (lit "url") ++ lit ": " ++ dq :: lit "http:")
    ++ Legacy.stripComments [].
Proof.
  apply stripComments_cuts_at_double_slash;
    try reflexivity; try (apply passes_by_eval; reflexivity).
Defined.

End CommentClaims.

(* ================================================================== *)
(** * More on the Project Type Analyzer *)
(* ================================================================== *)

Module AnalyzerMore.
Import JS Model Spec Extension Inputs MoreInputs AnalyzerFacts.

Lemma number_le (m t : nat) : m <= t -> (number m <= number t)%Q.
Proof.
  intro H. unfold number, Qle. simpl. lia.
Qed.

Lemma number_lt (m t : nat) : m < t -> (number m < number t)%Q.
Proof.
  intro H. unfold number, Qlt. simpl. lia.
Qed.

Lemma ratio_le_100 (m t : nat) :
  0 < t -> m <= t -> (number m / number t * 100 <= 100)%Q.
Proof.
  intros Ht Hm.
  assert (Hpos : (0 < number t)%Q) by (apply (number_lt Ht)).
  setoid_replace 100%Q with (1 * 100)%Q at 2 by ring.
  apply Qmult_le_compat_r; [|discriminate].
  apply Qle_shift_div_r; [assumption|].
  rewrite Qmult_1_l. now apply number_le.
Qed.

Lemma ratio_lt_100 (m t : nat) :
  m < t -> (number m / number t * 100 < 100)%Q.
Proof.
  intro Hm.
  assert (Hpos : (0 < number t)%Q) by (apply (@number_lt 0 t); lia).
  setoid_replace 100%Q with (1 * 100)%Q at 2 by ring.
  apply Qmult_lt_compat_r; [reflexivity|].
  apply Qlt_shift_div_r; [assumption|].
  rewrite Qmult_1_l. now apply number_lt.
Qed.

Lemma ratio_nonneg (m t : nat) : (0 <= number m / number t * 100)%Q.
Proof.
  apply Qmult_le_0_compat; [|discriminate].
  destruct t as [|t].
  - unfold Qdiv. change (/ number 0)%Q with 0%Q. rewrite Qmult_0_r. apply Qle_refl.
  - apply Qle_shift_div_l; [apply (@number_lt 0 (S t)); lia|].
    rewrite Qmult_0_l. apply (@number_le 0 m). lia.
Qed.

(** X12.  Whatever the directory holds, the analyzer hands every
    signature back with its name, marker files and patterns untouched and
    with a confidence between 0 and 100. *)
Theorem confidence_in_range
        (fs : FileSystem) (path_join : str -> str -> str)
        (RegExp : str -> option regex) (ws : str) (type : ProjectType) :
  let r := analyzeType fs path_join RegExp ws type in
  name r = name type /\ files r = files type /\ patterns r = patterns type
  /\ (0 <= confidence r)%Q /\ (confidence r <= 100)%Q.
Proof.
  intro r. repeat split; subst r; unfold analyzeType; cbn [confidence].
  - destruct (Nat.ltb 0 _); [apply ratio_nonneg | apply Qle_refl].
  - destruct (Nat.ltb_spec 0 (length (files type) + length (patterns type)));
      [|discriminate].
    apply ratio_le_100; [assumption|].
    pose proof (checkFiles_bound fs path_join ws (files type)).
    pose proof (detectedPatterns_bound fs RegExp ws (patterns type)). lia.
Qed.

(** A pattern that neither ends in the separator nor holds a wildcard. *)
Lemma checkPatterns_wild_bound (RegExp : str -> option regex)
      (entries pats : list str) :
  forall acc,
    checkPatterns RegExp entries pats acc
    <= acc + length (filter (fun p => ends_with (lit "/") p
                                      || includes (lit "*") p) pats).
Proof.
  induction pats as [|p pats IH]; intro acc; simpl; [lia|].
  destruct (ends_with (lit "/") p); simpl.
  - destruct (existsb _ entries); [specialize (IH (S acc)) | specialize (IH acc)]; lia.
  - destruct (includes (lit "*") p); simpl.
    + destruct (RegExp _); [|lia].
      destruct (existsb _ entries); [specialize (IH (S acc)) | specialize (IH acc)]; lia.
    + apply IH.
Qed.

Lemma filter_length_lt (A : Type) (f : A -> bool) (l : list A) (x : A) :
  In x l -> f x = false -> length (filter f l) < length l.
Proof.
  induction l as [|y l IH]; intros Hin Hf; [contradiction|].
  simpl. destruct Hin as [-> | Hin].
  - rewrite Hf. pose proof (filter_length_le f l). lia.
  - specialize (IH Hin Hf). destruct (f y); simpl; lia.
Qed.

(** X13.  A pattern that neither ends in the separator nor holds a
    wildcard is never looked for: a signature that declares one stays
    below a confidence of 100, whatever the directory holds. *)
Theorem plain_pattern_never_counts
        (fs : FileSystem) (path_join : str -> str -> str)
        (RegExp : str -> option regex) (ws : str) (type : ProjectType)
        (pattern : str) :
  In pattern (patterns type) ->
  ends_with (lit "/") pattern = false ->
  includes (lit "*") pattern = false ->
  detectedPatterns fs RegExp ws (patterns type) < length (patterns type)
  /\ (confidence (analyzeType fs path_join RegExp ws type) < 100)%Q.
Proof.
  intros Hin Hdir Hwild.
  assert (Hlt : detectedPatterns fs RegExp ws (patterns type)
                < length (patterns type)).
  { unfold detectedPatterns.
    assert (Hpos : 0 < length (patterns type))
      by (destruct (patterns type); [contradiction | simpl; lia]).
    destruct (readdirSync fs ws) as [entries|]; [|assumption].
    pose proof (checkPatterns_wild_bound RegExp entries (patterns type) 0) as Hb.
    pose proof (@filter_length_lt _
                  (fun p => ends_with (lit "/") p || includes (lit "*") p)
                  _ _ Hin) as Hf.
    cbv beta in Hf. rewrite Hdir, Hwild in Hf. specialize (Hf eq_refl). lia. }
  split; [assumption|].
  unfold analyzeType. cbn [confidence].
  destruct (Nat.ltb_spec 0 (length (files type) + length (patterns type)));
    [|lia].
  apply ratio_lt_100.
  pose proof (checkFiles_bound fs path_join ws (files type)). lia.
Qed.

(** Witness of [plain_pattern_never_counts]: the marker file and a file
    named like the pattern are both there, and the pattern does not count. *)
Lemma plain_pattern_never_counts_witness :
  detectedPatterns make_workspace RegExp_fragment (lit "/w")
                   (patterns make_signature)
  < length (patterns make_signature)
  /\ (confidence (analyzeType make_workspace posix_join RegExp_fragment
                              (lit "/w") make_signature) < 100)%Q.
Proof.
  apply (@plain_pattern_never_counts make_workspace posix_join RegExp_fragment
           (lit "/w") make_signature (lit "Makefile"));
    [now left | reflexivity | reflexivity].
Defined.

End AnalyzerMore.

(* ================================================================== *)
(** * The views *)
(* ================================================================== *)

Module ViewFacts.
Import JS Json Model Spec Notions Extension Inputs Views.
Import CatalogFacts ConfigFileFacts ResolverExamples ResolverMore.

(** [path.basename] of a path that ends in a separator and a plain
    name. *)
Lemma basename_join (dir name : str) :
  name <> [] -> ~ In slash name ->
  basename (posix_join dir name) = name.
Proof.
  intros Hne Hname. unfold basename, posix_join.
  rewrite rev_app_distr. cbn [rev]. rewrite <- app_assoc. cbn [app].
  assert (Hrev : ~ In slash (rev name)) by (now rewrite <- in_rev).
  assert (Hnil : rev name <> [])
    by (intro E; apply Hne; apply (f_equal (@rev _)) in E;
        now rewrite rev_involutive in E).
  assert (E1 : forall t, drop_trailing_slashes_rev (rev name ++ t) = rev name ++ t).
  { intro t. destruct (rev name) as [|c r]; [contradiction|].
    cbn [app drop_trailing_slashes_rev].
    destruct (N.eqb_spec c slash) as [-> | _]; [|reflexivity].
    exfalso. apply Hrev. now left. }
  rewrite E1.
  assert (E2 : forall r t, ~ In slash r ->
                           take_until_slash (r ++ slash :: t) = r).
  { induction r as [|c r IH]; intros t Hr.
    - cbn [app take_until_slash]. now rewrite N.eqb_refl.
    - cbn [app take_until_slash]. destruct (N.eqb_spec c slash) as [-> | _].
      + exfalso. apply Hr. now left.
      + f_equal. apply IH. intro Hin. apply Hr. now right. }
  rewrite E2 by assumption. apply rev_involutive.
Qed.

Lemma managed_path (ws name : str) :
  In name configFileNames ->
  isConfigFile (posix_join (posix_join ws (lit ".vscode")) name) = true.
Proof.
  intro Hin. apply isConfigFile_true. split.
  - unfold posix_join.
    replace ((ws ++ slash :: lit ".vscode") ++ slash :: name)
      with ((ws ++ [slash]) ++ lit ".vscode" ++ slash :: name)
      by (now rewrite <- !app_assoc).
    apply includes_app.
  - rewrite basename_join; [assumption | |].
    + destruct Hin as [<- | [<- | [<- | []]]]; discriminate.
    + destruct Hin as [<- | [<- | [<- | []]]];
        apply not_In_by_eval; reflexivity.
Qed.

(** X14.  The tree of configuration files offers, in this order, exactly
    the three names [isConfigFile] knows; for a workspace folder [ws] each
    item stands for the file of that name in [ws/.vscode], which
    [isConfigFile] accepts, it says whether that file exists, and a click
    on it opens the file when it exists and creates it when it is missing.
    Without a workspace folder the tree is empty. *)
Theorem tree_offers_managed_files (fs : FileSystem) (ws : str) :
  map (fun item => fileName (config item))
      (getConfigFiles fs posix_join (Some ws))
  = configFileNames
  /\ Forall (fun item =>
       let filePath :=
         posix_join (posix_join ws (lit ".vscode")) (fileName (config item)) in
       isConfigFile filePath = true
       /\ exists_ (config item) = existsSync fs filePath
       /\ item_command item
          = mkCommand (if exists_ (config item)
                       then lit "vscode-settings.openConfigFile"
                       else lit "vscode-settings.createConfigFile")
                      (if exists_ (config item)
                       then lit "Open Config File"
                       else lit "Create Config File")
                      [fileName (config item)])
      (getConfigFiles fs posix_join (Some ws))
  /\ getConfigFiles fs posix_join None = [].
Proof.
  split; [|split; [|reflexivity]].
  - unfold getConfigFiles. cbn [map]. unfold new_ConfigFile.
    repeat match goal with
           | |- context [existsSync fs ?p] => destruct (existsSync fs p)
           end; reflexivity.
  - unfold getConfigFiles. cbn [map].
    repeat constructor; cbv zeta; unfold new_ConfigFile;
      match goal with
      | |- context [existsSync fs ?p] => destruct (existsSync fs p) eqn:E
      end; cbn [config fileName exists_ item_command];
      repeat split; auto;
      apply managed_path; simpl; auto.
Qed.

(** X15.  The helper panel is empty exactly when there is no active
    editor, the file is not one [isConfigFile] accepts, or the document
    has no such line or no quoted token on it; otherwise its first item
    reads [key: value] for the property found on the line, followed by at
    least the type and the description. *)
Theorem helper_panel_empty_iff
        (configDocs : list (str * DocEntry)) (String_of_inherited : str -> str)
        (activeEditor : option Editor) :
  (updatePropHelperContent configDocs String_of_inherited activeEditor = []
   <-> match activeEditor with
       | None => True
       | Some editor =>
           isConfigFile (fsPath editor) = false
           \/ lineAt (document editor) (cursor_line editor) = None
           \/ exists line,
                lineAt (document editor) (cursor_line editor) = Some line
                /\ ~ contains_quoted_token line
       end)
  /\ match activeEditor with
     | None => True
     | Some editor =>
         if isConfigFile (fsPath editor) then
           match Extension.getPropertyAtPosition (document editor)
                                                 (cursor_line editor) with
           | Some property =>
               exists second third rest,
                 updatePropHelperContent configDocs String_of_inherited
                                         activeEditor
                 = mkTreeItem (key property ++ lit ": " ++ value property)
                              Expanded
                   :: second :: third :: rest
           | None => True
           end
         else True
     end.
Proof.
  destruct activeEditor as [editor|]; [|split; [split; auto | exact I]].
  unfold updatePropHelperContent.
  destruct (isConfigFile (fsPath editor)); cbn [negb];
    [|split; [split; auto | exact I]].
  pose proof (resolver_null_iff (document editor) (cursor_line editor)) as Hnull.
  destruct (Extension.getPropertyAtPosition (document editor)
                                            (cursor_line editor)) as [p|].
  - split.
    + split.
      * destruct (getConfigDocumentation configDocs (key p)); discriminate.
      * intros [H | H]; [discriminate|].
        apply Hnull in H. discriminate.
    + destruct (getConfigDocumentation configDocs (key p));
        unfold updateContent; cbn [app]; eauto.
  - split; [|exact I]. split; [|reflexivity].
    intros _. right. now apply Hnull.
Qed.

End ViewFacts.

(* ================================================================== *)
(** * The views of the older variant *)
(* ================================================================== *)

Module SortFacts.
Import JS Json Model Spec Views LegacyViews ViewNotions ViewInputs.

Section Listing.
Variable fs : Extension.FileSystem.
Variable path_join : str -> str -> str.
Variable localeCompare : str -> str -> Z.
Hypothesis collation : alphabetical localeCompare.

Lemma settings_after_launch :
  (localeCompare (lit "settings.json") (lit "launch.json") >? 0)%Z = true.
Proof.
  unfold Z.gtb. rewrite collation; [reflexivity | simpl; auto | simpl; auto].
Qed.

Lemma settings_after_extensions :
  (localeCompare (lit "settings.json") (lit "extensions.json") >? 0)%Z = true.
Proof.
  unfold Z.gtb. rewrite collation; [reflexivity | simpl; auto | simpl; auto].
Qed.

Lemma launch_after_extensions :
  (localeCompare (lit "launch.json") (lit "extensions.json") >? 0)%Z = true.
Proof.
  unfold Z.gtb. rewrite collation; [reflexivity | simpl; auto | simpl; auto].
Qed.

(** X16.  In the older variant the tree lists the files that exist
    first and the missing ones after them, each group in the order of
    the alphabet: extensions.json, launch.json, settings.json. *)
Theorem existing_files_listed_first (ws : str) :
  let there name :=
    Extension.existsSync fs (path_join (path_join ws (lit ".vscode")) name) in
  let names := [lit "extensions.json"; lit "launch.json"; lit "settings.json"] in
  map (fun item => (fileName (config item), exists_ (config item)))
      (getConfigFiles fs path_join localeCompare (Some ws))
  = map (fun name => (name, true)) (filter there names)
    ++ map (fun name => (name, false))
           (filter (fun name => negb (there name)) names).
Proof.
  cbv zeta. unfold getConfigFiles.
  cbn [map filter fileName label item_description].
  destruct (Extension.existsSync fs
              (path_join (path_join ws (lit ".vscode")) (lit "settings.json")));
  destruct (Extension.existsSync fs
              (path_join (path_join ws (lit ".vscode")) (lit "launch.json")));
  destruct (Extension.existsSync fs
              (path_join (path_join ws (lit ".vscode")) (lit "extensions.json")));
  cbn [sort fold_left insert byExistence exists_ label andb negb];
  rewrite ?settings_after_launch, ?settings_after_extensions,
          ?launch_after_extensions;
  cbn [insert byExistence exists_ label andb negb Z.gtb Z.compare];
  rewrite ?settings_after_launch, ?settings_after_extensions,
          ?launch_after_extensions;
  reflexivity.
Qed.
End Listing.

Lemma unit_order_alphabetical : alphabetical unit_order.
Proof.
  intros a b _ _. unfold unit_order. now destruct (compare_units a b).
Defined.

(** Witness of [existing_files_listed_first]: a workspace that has a
    [launch.json] only. *)
Lemma existing_files_listed_first_witness :
  map (fun item => (fileName (config item), exists_ (config item)))
      (getConfigFiles
         (Inputs.file_system [lit "/w/.vscode/launch.json"] (fun _ => None))
         Inputs.posix_join unit_order (Some (lit "/w")))
  = [(lit "launch.json", true); (lit "extensions.json", false);
     (lit "settings.json", false)].
Proof.
  exact (@existing_files_listed_first
           (Inputs.file_system [lit "/w/.vscode/launch.json"] (fun _ => None))
           Inputs.posix_join unit_order unit_order_alphabetical (lit "/w")).
Defined.

End SortFacts.

Module WrapFacts.
Import JS Json Model Spec Notions Views LegacyViews ViewNotions.
Import ResolverMore.

Lemma length_trim_start (s : str) : length (trim_start s) <= length s.
Proof.
  induction s as [|c s IH]; simpl; [lia|].
  destruct (is_space c); simpl; lia.
Qed.

Lemma length_trim (s : str) : length (trim s) <= length s.
Proof.
  unfold trim. rewrite length_rev.
  etransitivity; [apply length_trim_start|].
  rewrite length_rev. apply length_trim_start.
Qed.






(** X18.  In the older variant, what is shown beside a possible value
    is either a text of at most 50 units or, when the value is the name
    of a member that the table of descriptions inherits, that member. *)
Theorem enum_description_fits
        (String_of_inherited : str -> str)
        (currentEnumDescriptions : option (list (str * str)))
        (enumValue : str) :
  match helper_description
          (enumItem String_of_inherited currentEnumDescriptions enumValue) with
  | Some (Text shown) => length shown <= 50
  | Some (Member name) =>
      name = enumValue
      /\ In enumValue Object_prototype_names
      /\ exists table, currentEnumDescriptions = Some table
                       /\ lookup enumValue table = None
  | None => False
  end.
Proof.
  assert (Hfit : forall d : str,
             length (if Nat.ltb 50 (length d)
                     then substring_0 47 d ++ lit "..." else d) <= 50).
  { intro d. destruct (Nat.ltb_spec 50 (length d)) as [H | H]; [|assumption].
    unfold substring_0. rewrite length_app, length_firstn.
    change (length (lit "...")) with 3. lia. }
  unfold enumItem. cbn [helper_description].
  destruct currentEnumDescriptions as [table|]; [|apply Hfit].
  destruct (lookup enumValue table) as [[|c d]|] eqn:El; try apply Hfit.
  destruct (array_includes enumValue Object_prototype_names) eqn:Ei;
    [|apply Hfit].
  split; [reflexivity|]. split; [|now exists table].
  now apply CatalogFacts.array_includes_In.
Qed.

End WrapFacts.

Module HandlerFacts.
Import JS Json Model Spec Notions Inputs Views ViewNotions.
Import JSFacts PatternFacts LineFacts ValueFacts ResolverFacts TokenFacts
       CatalogFacts.

(** X19.  In the older variant the handler of cursor movements throws
    in one situation only: the file is one the extension manages, the
    resolver finds a property, and the key of that property is not in the
    catalog but is the name of a member the catalog inherits from
    [Object.prototype]. *)
Theorem legacy_helper_throws_iff
        (JSON_parse : str -> option json) (JSON_stringify : json -> str)
        (configDocs : list (str * DocEntry)) (activeEditor : option Editor) :
  LegacyViews.updatePropHelperContent JSON_parse JSON_stringify configDocs
                                      activeEditor = None
  <-> exists editor property,
        activeEditor = Some editor
        /\ isConfigFile (fsPath editor) = true
        /\ Legacy.getPropertyAtPosition JSON_parse JSON_stringify
             (document editor) (cursor_line editor) = Some property
        /\ lookup (key property) configDocs = None
        /\ In (key property) Object_prototype_names.
Proof.
  unfold LegacyViews.updatePropHelperContent, getConfigDocumentation. split.
  - destruct activeEditor as [editor|]; [|discriminate].
    destruct (isConfigFile (fsPath editor)) eqn:Ef; [|discriminate].
    cbn [negb].
    destruct (Legacy.getPropertyAtPosition JSON_parse JSON_stringify
                (document editor) (cursor_line editor)) as [p|] eqn:Ep;
      [|discriminate].
    destruct (lookup (key p) configDocs) eqn:El; [discriminate|].
    destruct (array_includes (key p) Object_prototype_names) eqn:Ei;
      [|discriminate].
    intros _. exists editor, p.
    apply array_includes_In in Ei.
    exact (conj eq_refl (conj Ef (conj Ep (conj El Ei)))).
  - intros (editor & p & -> & Ef & Ep & El & Hin).
    rewrite Ef, Ep, El. cbn [negb].
    apply array_includes_In in Hin. now rewrite Hin.
Qed.

(** The resolver of [src/src/extension.ts] on a well-formed line. *)
Lemma Extension_key_value_line (document : str) (n : nat) (line k v : str) :
  lineAt document n = Some line ->
  key_value_line line k v ->
  Extension.getPropertyAtPosition document n = Some (mkProperty k v).
Proof.
  intros Hline Hkv.
  destruct (@exec_key_value_line _ _ _ Hkv) as (m & sp3 & Hm & Hg & Hsp3).
  unfold Extension.getPropertyAtPosition. rewrite Hline, Hm, Hg.
  cbn [group Nat.eqb].
  destruct Hkv as (pre & sp1 & sp2 & sp3' & tl & v0 & c & _ & _ & _ & _ & _
                   & _ & _ & _ & Hhead & -> & Hc & _).
  now rewrite trim_value.
Qed.

(** X20.  In [src/src/extension.ts], with the cursor on a well-formed
    line whose key is not in the catalog but is the name of a member the
    catalog inherits, the panel shows the key and the value, the type
    [unknown] and the description [undefined]. *)
Theorem helper_shows_undefined
        (configDocs : list (str * DocEntry)) (String_of_inherited : str -> str)
        (editor : Editor) (line name v : str) :
  isConfigFile (fsPath editor) = true ->
  lineAt (document editor) (cursor_line editor) = Some line ->
  key_value_line line name v ->
  lookup name configDocs = None ->
  In name Object_prototype_names ->
  Views.updatePropHelperContent configDocs String_of_inherited (Some editor)
  = [ mkTreeItem (name ++ lit ": " ++ v) Expanded;
      mkTreeItem (lit "Type: unknown") StateNone;
      mkTreeItem (lit "Description: undefined") StateNone ].
Proof.
  intros Hf Hline Hkv Hl Hin.
  unfold Views.updatePropHelperContent.
  rewrite Hf, (@Extension_key_value_line _ _ _ _ _ Hline Hkv).
  cbn [negb key value]. unfold getConfigDocumentation. rewrite Hl.
  apply array_includes_In in Hin. now rewrite Hin.
Qed.

End HandlerFacts.

Module HandlerExamples.
Import JS Json Model Spec Notions Inputs Views ViewNotions ViewInputs
       HandlerFacts.
Import ResolverExamples.

Lemma toString_line_shape :
  key_value_line toString_line (lit "toString") (lit "true").
Proof.
  exists [], [], [32%N], [], [], (lit "tru"), 101%N.
  repeat apply conj;
    try reflexivity;
    try (apply not_In_by_eval; reflexivity);
    try (apply passes_by_eval; reflexivity);
    try discriminate.
  now left.
Defined.

(** Witness of [helper_shows_undefined]. *)
Lemma helper_shows_undefined_witness :
  Views.updatePropHelperContent Extension.configDocs_excerpt (fun _ => [])
    (Some (mkEditor (lit "/w/.vscode/settings.json") toString_line 0))
  = [ mkTreeItem (lit "toString: true") Expanded;
      mkTreeItem (lit "Type: unknown") StateNone;
      mkTreeItem (lit "Description: undefined") StateNone ].
Proof.
  refine (@helper_shows_undefined Extension.configDocs_excerpt (fun _ => [])
            (mkEditor (lit "/w/.vscode/settings.json") toString_line 0)
            toString_line (lit "toString") (lit "true")
            eq_refl eq_refl toString_line_shape eq_refl _).
  apply CatalogFacts.array_includes_In. reflexivity.
Defined.

(** [legacy_helper_throws_iff] at work: the same line in the older
    variant. *)
Lemma legacy_helper_throws_iff_witness :
  LegacyViews.updatePropHelperContent (fun _ => None) (fun _ => [])
    Extension.configDocs_excerpt
    (Some (mkEditor (lit "/w/.vscode/settings.json") toString_line 0))
  = None.
Proof.
  apply legacy_helper_throws_iff.
  exists (mkEditor (lit "/w/.vscode/settings.json") toString_line 0),
         (mkProperty (lit "toString") (lit "true")).
  repeat apply conj; try reflexivity.
  apply CatalogFacts.array_includes_In. reflexivity.
Defined.

End HandlerExamples.

(* ================================================================== *)
(** * Applying a configuration template *)
(* ================================================================== *)

Module TemplateFacts.
Import JS Json Model Spec Inputs Templates ViewNotions.
Import CatalogFacts.

Lemma str_eqb_trans_false (a b c : str) :
  str_eqb a b = true -> str_eqb b c = false -> str_eqb a c = false.
Proof. intros E1 E2. apply str_eqb_eq in E1. now subst. Qed.

Lemma lookup_define_index (n : N) (k : str) (v : json)
      (props : list (str * json)) (k' : str) :
  lookup k' (define_index n k v props)
  = if str_eqb k' k then Some v else lookup k' props.
Proof.
  induction props as [|[k0 v0] rest IH]; [reflexivity|].
  cbn [define_index].
  destruct (str_eqb k k0) eqn:E0.
  - apply str_eqb_eq in E0. subst k0. cbn [lookup].
    now destruct (str_eqb k' k).
  - destruct (array_index k0) as [m|]; [destruct (N.ltb m n)|];
      try reflexivity.
    cbn [lookup]. rewrite IH.
    destruct (str_eqb k' k) eqn:E1; [|reflexivity].
    now rewrite (@str_eqb_trans_false _ _ _ E1 E0).
Qed.

Lemma lookup_define_name (k : str) (v : json) (props : list (str * json))
      (k' : str) :
  lookup k' (define_name k v props)
  = if str_eqb k' k then Some v else lookup k' props.
Proof.
  induction props as [|[k0 v0] rest IH]; [reflexivity|].
  cbn [define_name].
  destruct (str_eqb k k0) eqn:E0.
  - apply str_eqb_eq in E0. subst k0. cbn [lookup].
    now destruct (str_eqb k' k).
  - cbn [lookup]. rewrite IH.
    destruct (str_eqb k' k) eqn:E1; [|reflexivity].
    now rewrite (@str_eqb_trans_false _ _ _ E1 E0).
Qed.

(** Defining a property changes what is found under its key and
    nothing else. *)
Lemma lookup_define (props : list (str * json)) (kv : str * json) (k' : str) :
  lookup k' (define props kv)
  = if str_eqb k' (fst kv) then Some (snd kv) else lookup k' props.
Proof.
  unfold define. destruct (array_index (fst kv)).
  - apply lookup_define_index.
  - apply lookup_define_name.
Qed.

Lemma lookup_app (A : Type) (k : str) (l1 l2 : list (str * A)) :
  lookup k (l1 ++ l2)
  = match lookup k l1 with Some v => Some v | None => lookup k l2 end.
Proof.
  induction l1 as [|[k0 v0] l1 IH]; [reflexivity|].
  simpl. now destruct (str_eqb k k0).
Qed.

(** Of the properties defined one after the other the last one counts. *)
Lemma lookup_fold_define (l acc : list (str * json)) (k : str) :
  lookup k (fold_left define l acc)
  = match lookup k (rev l) with Some v => Some v | None => lookup k acc end.
Proof.
  revert acc. induction l as [|[k0 v0] l IH]; intro acc; [reflexivity|].
  cbn [fold_left rev]. rewrite IH, lookup_app, lookup_define.
  destruct (lookup k (rev l)); [reflexivity|].
  cbn [lookup fst snd]. now destruct (str_eqb k k0).
Qed.

Lemma lookup_None (A : Type) (k : str) (l : list (str * A)) :
  lookup k l = None <-> ~ In k (map fst l).
Proof.
  induction l as [|[k0 v0] l IH]; simpl; [tauto|].
  destruct (str_eqb k k0) eqn:E.
  - apply str_eqb_eq in E. subst. split; [discriminate | tauto].
  - rewrite IH. split; [|tauto].
    intros H [E' | Hin]; [|tauto].
    subst. now rewrite str_eqb_refl in E.
Qed.

Lemma lookup_In (A : Type) (k : str) (v : A) (l : list (str * A)) :
  NoDup (map fst l) -> In (k, v) l -> lookup k l = Some v.
Proof.
  induction l as [|[k0 v0] l IH]; simpl; [tauto|].
  intros Hnd [E | Hin].
  - injection E as -> ->. now rewrite str_eqb_refl.
  - inversion Hnd as [|? ? Hk0 Hnd']; subst.
    destruct (str_eqb k k0) eqn:E.
    + apply str_eqb_eq in E. subst. exfalso. apply Hk0.
      apply in_map_iff. now exists (k0, v).
    + now apply IH.
Qed.

Lemma lookup_Some_In (A : Type) (k : str) (v : A) (l : list (str * A)) :
  lookup k l = Some v -> In (k, v) l.
Proof.
  induction l as [|[k0 v0] l IH]; simpl; [discriminate|].
  destruct (str_eqb k k0) eqn:E.
  - apply str_eqb_eq in E. subst. intros [= ->]. now left.
  - intro H. right. now apply IH.
Qed.

(** Where no key occurs twice the order of the properties does not
    matter to a lookup. *)
Lemma lookup_rev (A : Type) (k : str) (l : list (str * A)) :
  NoDup (map fst l) -> lookup k (rev l) = lookup k l.
Proof.
  intro Hnd.
  assert (Hnd' : NoDup (map fst (rev l)))
    by (rewrite map_rev; now apply NoDup_rev).
  destruct (lookup k l) as [v|] eqn:E.
  - apply lookup_Some_In in E. apply lookup_In; [assumption|].
    now apply in_rev in E.
  - apply lookup_None. apply lookup_None in E.
    rewrite map_rev. now rewrite <- in_rev.
Qed.

Lemma spread_lookup (a b : json) (k : str) :
  distinct_keys a -> distinct_keys b ->
  get (spread a b) k
  = match lookup k (enumerable b) with
    | Some v => Some v
    | None => lookup k (enumerable a)
    end.
Proof.
  intros Ha Hb. unfold spread, get. cbn [own_properties enumerable].
  rewrite lookup_fold_define, rev_app_distr, lookup_app.
  rewrite !lookup_rev by assumption.
  cbn [lookup]. now destruct (lookup k (enumerable b)), (lookup k (enumerable a)).
Qed.

Section Apply.
Variable fs : Extension.FileSystem.
Variable readFileSync : str -> option str.
Variable JSON_parse : str -> option json.

(** X21.  The merged settings hold, under every key, the value of the
    template where the template has that key, and the value of the
    existing settings otherwise. *)
Theorem template_overrides_settings
        (settingsPath : str) (template : ConfigTemplate) (k : str) :
  distinct_keys (existingSettings fs readFileSync JSON_parse settingsPath) ->
  distinct_keys (content template) ->
  get (mergedSettings fs readFileSync JSON_parse settingsPath template) k
  = match lookup k (enumerable (content template)) with
    | Some v => Some v
    | None =>
        lookup k (enumerable
                    (existingSettings fs readFileSync JSON_parse settingsPath))
    end.
Proof. intros Ha Hb. unfold mergedSettings. now apply spread_lookup. Qed.

Variable path_join : str -> str -> str.
Variable mkdirSync : str -> bool.
Variable writeFileSync : str -> str -> bool.
Variable JSON_stringify_4 : json -> str.

(** X22.  When the settings file of the workspace is there but cannot
    be read or does not parse (comments are enough for that), the command
    hands to [writeFileSync], for that very file, the text of an object
    that has the properties of the template and nothing else: what the
    file held is not kept. *)
Theorem unparsable_settings_are_dropped (ws : str) (template : ConfigTemplate) :
  let vscodeDir := path_join ws (lit ".vscode") in
  let settingsPath := path_join vscodeDir (lit "settings.json") in
  Extension.existsSync fs vscodeDir = true ->
  Extension.existsSync fs settingsPath = true ->
  (forall text, readFileSync settingsPath = Some text ->
                JSON_parse text = None) ->
  distinct_keys (content template) ->
  exists merged,
    (forall k, get merged k = lookup k (enumerable (content template)))
    /\ applyConfigTemplate fs path_join mkdirSync readFileSync writeFileSync
         JSON_parse JSON_stringify_4 (Some ws) template
       = if writeFileSync settingsPath (JSON_stringify_4 merged)
         then Written settingsPath (JSON_stringify_4 merged)
         else NotWritten settingsPath (JSON_stringify_4 merged).
Proof.
  cbv zeta. intros Hd He Hbad Hb.
  set (settingsPath := path_join (path_join ws (lit ".vscode"))
                                 (lit "settings.json")) in *.
  exists (mergedSettings fs readFileSync JSON_parse settingsPath template).
  split.
  - intro k. unfold mergedSettings.
    assert (E : existingSettings fs readFileSync JSON_parse settingsPath
                = JObj []).
    { unfold existingSettings. rewrite He.
      destruct (readFileSync settingsPath) as [text|] eqn:Er; [|reflexivity].
      now rewrite (Hbad text eq_refl). }
    rewrite E, spread_lookup; [| constructor | assumption].
    now destruct (lookup k (enumerable (content template))).
  - unfold applyConfigTemplate. rewrite Hd. reflexivity.
Qed.
End Apply.

End TemplateFacts.

Module TemplateExamples.
Import JS Json Model Spec Inputs Templates ViewNotions ViewInputs
       TemplateFacts.

Lemma distinct_by_eval (l : list str) :
  (fix distinct (l : list str) : bool :=
     match l with
     | [] => true
     | x :: rest => negb (array_includes x rest) && distinct rest
     end) l = true ->
  NoDup l.
Proof.
  induction l as [|x l IH]; [constructor|].
  intro H. apply andb_true_iff in H. destruct H as [Hx Hl].
  constructor; [|now apply IH].
  intro Hin. apply CatalogFacts.array_includes_In in Hin.
  now rewrite Hin in Hx.
Defined.

(** Witness of [template_overrides_settings]: the size of a tab comes
    from the template. *)
Lemma template_overrides_settings_witness :
  get (mergedSettings (file_system [settings_file] (fun _ => None))
         (fun _ => Some []) (fun _ => Some stored_settings)
         settings_file python_template)
      (lit "editor.tabSize")
  = Some four.
Proof.
  apply (@template_overrides_settings
           (file_system [settings_file] (fun _ => None))
           (fun _ => Some []) (fun _ => Some stored_settings)
           settings_file python_template (lit "editor.tabSize"));
    apply distinct_by_eval; reflexivity.
Defined.

(** Witness of [unparsable_settings_are_dropped]: a settings file
    that begins with a comment. *)
Lemma unparsable_settings_are_dropped_witness :
  exists merged,
    (forall k, get merged k = lookup k (enumerable (content python_template)))
    /\ applyConfigTemplate
         (file_system [lit "/w/.vscode"; settings_file] (fun _ => None))
         posix_join (fun _ => true)
         (fun _ => Some (lit "{ // my settings")) (fun _ _ => true)
         (fun _ => None) (fun _ => [])
         (Some (lit "/w")) python_template
       = Written settings_file [].
Proof.
  apply (@unparsable_settings_are_dropped
           (file_system [lit "/w/.vscode"; settings_file] (fun _ => None))
           (fun _ => Some (lit "{ // my settings")) (fun _ => None)
           posix_join (fun _ => true) (fun _ _ => true) (fun _ => [])
           (lit "/w") python_template).
  - reflexivity.
  - reflexivity.
  - reflexivity.
  - apply distinct_by_eval; reflexivity.
Defined.

End TemplateExamples.

(* ================================================================== *)
(** * The declared signatures *)
(* ================================================================== *)

Module SignatureFacts.
Import JS Model Spec Extension Inputs AnalyzerFacts.

Section Rules.
Variable RegExp : str -> option regex.
Variable entries : list str.

(** One turn of the loop for a directory pattern. *)
Lemma checkPatterns_directory (pattern : str) (rest : list str) (n : nat) :
  ends_with (lit "/") pattern = true ->
  checkPatterns RegExp entries (pattern :: rest) n
  = checkPatterns RegExp entries rest
      (if existsb (fun f => str_eqb f (slice_0_m1 pattern)) entries
       then S n else n).
Proof. intro H. cbn [checkPatterns]. now rewrite H. Qed.

(** One turn of the loop for a wildcard pattern whose rule can be
    built. *)
Lemma checkPatterns_wildcard (pattern : str) (rest : list str) (n : nat)
      (rule : regex) :
  ends_with (lit "/") pattern = false ->
  includes (lit "*") pattern = true ->
  RegExp (replace_first (lit "*") (lit ".*") pattern) = Some rule ->
  checkPatterns RegExp entries (pattern :: rest) n
  = checkPatterns RegExp entries rest
      (if existsb (fun f => test rule f) entries then S n else n).
Proof. intros H1 H2 H3. cbn [checkPatterns]. now rewrite H1, H2, H3. Qed.
End Rules.

(** X23.  A workspace whose [package.json] exists and is listed in its
    root is always reported as a Node.js project: the marker file counts
    once and the name [package.json] satisfies the rule built for
    [*.js], which makes two of four checks. *)
Theorem package_json_detects_node
        (fs : FileSystem) (path_join : str -> str -> str)
        (ws : str) (entries : list str) :
  existsSync fs (path_join ws (lit "package.json")) = true ->
  readdirSync fs ws = Some entries ->
  In (lit "package.json") entries ->
  exists node rest,
    analyzeProject fs path_join RegExp_fragment ws = node :: rest
    /\ name node = lit "Node.js"
    /\ detected node = true
    /\ (50 <= confidence node)%Q.
Proof.
  intros Hfile Hdir Hin.
  unfold analyzeProject, projectTypes. cbn [map].
  eexists. eexists. split; [reflexivity|].
  split; [reflexivity|].
  unfold analyzeType. cbn [detected confidence files patterns length].
  unfold checkFiles. cbn [filter]. rewrite Hfile. cbn [length].
  unfold detectedPatterns. rewrite Hdir.
  rewrite checkPatterns_directory by reflexivity.
  erewrite checkPatterns_wildcard by reflexivity.
  erewrite checkPatterns_wildcard by reflexivity.
  cbn [checkPatterns].
  match goal with
  | |- context [existsb (fun f => test ?rule f) entries] =>
      assert (Hjs : existsb (fun f => test rule f) entries = true)
        by (apply existsb_exists; exists (lit "package.json");
            split; [assumption | vm_compute; reflexivity]);
      rewrite Hjs
  end.
  repeat match goal with
         | |- context [existsb ?f entries] => destruct (existsb f entries)
         end;
    (split; [reflexivity | vm_compute; discriminate]).
Qed.

(** Witness of [package_json_detects_node]: a workspace that holds
    nothing but a [package.json]. *)
Lemma package_json_detects_node_witness :
  exists node rest,
    analyzeProject
      (file_system [lit "/w/package.json"]
                   (fun _ => Some [lit "package.json"]))
      posix_join RegExp_fragment (lit "/w")
    = node :: rest
    /\ name node = lit "Node.js"
    /\ detected node = true
    /\ (50 <= confidence node)%Q.
Proof.
  apply (@package_json_detects_node
           (file_system [lit "/w/package.json"]
                        (fun _ => Some [lit "package.json"]))
           posix_join (lit "/w") [lit "package.json"]).
  - reflexivity.
  - reflexivity.
  - now left.
Defined.

End SignatureFacts.

(* ================================================================== *)
(** * Growing workspaces *)
(* ================================================================== *)

Module GrowthFacts.
Import JS Model Spec Extension Inputs MoreInputs WorkspaceNotions.
Import AnalyzerFacts AnalyzerMore.







End GrowthFacts.

(* ================================================================== *)
(** * The layout of merged settings *)
(* ================================================================== *)

Module LayoutFacts.
Import JS Json Model Spec Inputs Templates ViewNotions ViewInputs
       TemplateNotions.
Import CatalogFacts TemplateFacts.

Lemma str_eqb_neq (a b : str) : str_eqb a b = false <-> a <> b.
Proof.
  split.
  - intros E ->. now rewrite str_eqb_refl in E.
  - intro H. destruct (str_eqb a b) eqn:E; [|reflexivity].
    apply str_eqb_eq in E. contradiction.
Qed.

Lemma define_name_new (k : str) (v : json) (props : list (str * json)) :
  ~ In k (map fst props) -> define_name k v props = props ++ [(k, v)].
Proof.
  induction props as [|[k0 v0] rest IH]; intro H; [reflexivity|].
  cbn [define_name].
  assert (E : str_eqb k k0 = false)
    by (apply str_eqb_neq; intros ->; apply H; now left).
  rewrite E, IH; [reflexivity|].
  intro Hin. apply H. now right.
Qed.

Lemma define_name_keys (k : str) (v : json) (props : list (str * json)) :
  In k (map fst props) ->
  map fst (define_name k v props) = map fst props.
Proof.
  induction props as [|[k0 v0] rest IH]; intro H; [contradiction|].
  cbn [define_name]. destruct (str_eqb k k0) eqn:E; [reflexivity|].
  cbn [map fst]. f_equal. apply IH.
  destruct H as [H | H]; [|assumption].
  apply str_eqb_neq in E. now contradiction E.
Qed.

(** With the key [k] out of the way, overriding does not see the
    property defined under [k]. *)
Lemma overridden_define (k : str) (v : json) (b props : list (str * json)) :
  lookup k b = None ->
  NoDup (map fst props) ->
  In k (map fst props) ->
  map (overridden b) (define_name k v props)
  = map (overridden ((k, v) :: b)) props.
Proof.
  intros Hb. induction props as [|[k0 v0] rest IH]; intros Hnd Hin;
    [contradiction|].
  inversion Hnd as [|? ? Hk0 Hnd']; subst.
  cbn [define_name]. destruct (str_eqb k k0) eqn:E.
  - apply str_eqb_eq in E. subst k0. cbn [map]. f_equal.
    + unfold overridden. cbn [fst snd lookup].
      now rewrite Hb, str_eqb_refl.
    + apply map_ext_in. intros [k1 v1] H1. unfold overridden.
      cbn [fst snd lookup].
      assert (E1 : str_eqb k1 k = false).
      { apply str_eqb_neq. intros ->. apply Hk0.
        apply in_map_iff. now exists (k, v1). }
      now rewrite E1.
  - cbn [map]. f_equal.
    + unfold overridden. cbn [fst snd lookup].
      assert (E1 : str_eqb k0 k = false).
      { apply str_eqb_neq. intros ->. now rewrite str_eqb_refl in E. }
      now rewrite E1.
    + apply IH; [assumption|].
      destruct Hin as [Hin | Hin]; [|assumption].
      apply str_eqb_neq in E. now contradiction E.
Qed.

Lemma overridden_other (k : str) (v : json) (b props : list (str * json)) :
  ~ In k (map fst props) ->
  map (overridden ((k, v) :: b)) props = map (overridden b) props.
Proof.
  intro H. apply map_ext_in. intros [k1 v1] H1. unfold overridden.
  cbn [fst snd lookup].
  assert (E1 : str_eqb k1 k = false).
  { apply str_eqb_neq. intros ->. apply H.
    apply in_map_iff. now exists (k, v1). }
  now rewrite E1.
Qed.

Lemma is_new_same_keys (a a' b : list (str * json)) :
  map fst a = map fst a' -> filter (is_new a) b = filter (is_new a') b.
Proof. intro H. unfold is_new. now rewrite H. Qed.

Lemma is_new_snoc (k : str) (v : json) (a b : list (str * json)) :
  ~ In k (map fst b) ->
  filter (is_new (a ++ [(k, v)])) b = filter (is_new a) b.
Proof.
  intro H. apply filter_ext_in. intros [k1 v1] H1. unfold is_new.
  cbn [fst]. f_equal. unfold array_includes.
  rewrite map_app, existsb_app. cbn [map fst existsb].
  assert (E : str_eqb k1 k = false).
  { apply str_eqb_neq. intros ->. apply H.
    apply in_map_iff. now exists (k, v1). }
  rewrite E. now rewrite !orb_false_r.
Qed.

(** Defining the properties of [b] one after the other on an object
    gives the layout. *)
Lemma fold_define_layout (b : list (str * json)) :
  NoDup (map fst b) ->
  Forall (fun k => array_index k = None) (map fst b) ->
  forall props,
    NoDup (map fst props) ->
    fold_left define b props = layout props b.
Proof.
  induction b as [|[k v] b IH]; intros Hnd Hplain props Hprops.
  - unfold layout. cbn [fold_left filter]. rewrite app_nil_r.
    rewrite <- (map_id props) at 1. apply map_ext.
    intros [k1 v1]. reflexivity.
  - inversion Hnd as [|? ? Hk Hnd']; subst.
    inversion Hplain as [|? ? Hkp Hplain']; subst.
    cbn [fst] in Hkp. cbn [fold_left]. unfold define at 2.
    cbn [fst snd]. rewrite Hkp.
    assert (Hb : lookup k b = None) by (now apply lookup_None).
    destruct (in_dec (list_eq_dec N.eq_dec) k (map fst props)) as [Hin | Hout].
    + rewrite IH; [|assumption|assumption|now rewrite define_name_keys].
      unfold layout. rewrite overridden_define by assumption.
      rewrite (@is_new_same_keys _ _ b (@define_name_keys k v props Hin)).
      f_equal. cbn [filter]. unfold is_new at 2. cbn [fst].
      apply array_includes_In in Hin. now rewrite Hin.
    + rewrite define_name_new by assumption.
      rewrite IH; [|assumption|assumption|].
      * unfold layout. rewrite map_app, <- app_assoc. cbn [map app].
        rewrite overridden_other by assumption.
        rewrite is_new_snoc by assumption. f_equal.
        cbn [filter]. unfold is_new at 2. cbn [fst].
        assert (E : array_includes k (map fst props) = false).
        { destruct (array_includes k (map fst props)) eqn:E; [|reflexivity].
          apply array_includes_In in E. contradiction. }
        rewrite E. cbn [negb]. f_equal.
        unfold overridden. cbn [fst snd]. now rewrite Hb.
      * rewrite map_app. cbn [map fst].
        apply NoDup_app; [assumption | repeat constructor; auto |].
        intros x Hx [<- | []]. contradiction.
Qed.

(** X25.  Where no key occurs twice and none is an array index, the
    merged settings are laid out as follows: the existing settings in
    their order, each with the value of the template where the template
    has its key, and after them the settings that only the template has,
    in the order of the template. *)
Theorem merged_settings_layout
        (fs : Extension.FileSystem) (readFileSync : str -> option str)
        (JSON_parse : str -> option json)
        (settingsPath : str) (template : ConfigTemplate) :
  let existing := existingSettings fs readFileSync JSON_parse settingsPath in
  distinct_keys existing -> plain_keys existing ->
  distinct_keys (content template) -> plain_keys (content template) ->
  mergedSettings fs readFileSync JSON_parse settingsPath template
  = JObj (layout (enumerable existing) (enumerable (content template))).
Proof.
  cbv zeta. intros Ha Hpa Hb Hpb. unfold mergedSettings, spread.
  rewrite fold_left_app.
  rewrite (@fold_define_layout (enumerable _) Ha Hpa []) by constructor.
  unfold layout at 1. cbn [map app].
  assert (E : forall l : list (str * json), filter (is_new []) l = l).
  { induction l as [|x l IHl]; [reflexivity|]. cbn. now rewrite IHl. }
  rewrite E. now rewrite (@fold_define_layout (enumerable _) Hb Hpb _ Ha).
Qed.

Lemma plain_by_eval (l : list str) :
  forallb (fun k => match array_index k with None => true | Some _ => false end)
          l = true ->
  Forall (fun k => array_index k = None) l.
Proof.
  intro H. apply Forall_forall. intros k Hin.
  pose proof (proj1 (forallb_forall _ l) H k Hin) as Hk. cbv beta in Hk.
  now destruct (array_index k).
Defined.

(** Witness of [merged_settings_layout]: the size of a tab stays in
    front with the value of the template, the end of line is kept, the
    formatting on save comes last. *)
Lemma merged_settings_layout_witness :
  mergedSettings (file_system [settings_file] (fun _ => None))
    (fun _ => Some []) (fun _ => Some stored_settings)
    settings_file python_template
  = JObj [(lit "editor.tabSize", four); (lit "files.eol", JStr [10%N]);
          (lit "editor.formatOnSave", JBool true)].
Proof.
  apply (@merged_settings_layout
           (file_system [settings_file] (fun _ => None))
           (fun _ => Some []) (fun _ => Some stored_settings)
           settings_file python_template).
  - apply TemplateExamples.distinct_by_eval; reflexivity.
  - apply plain_by_eval; reflexivity.
  - apply TemplateExamples.distinct_by_eval; reflexivity.
  - apply plain_by_eval; reflexivity.
Defined.

End LayoutFacts.
